(** * pandemic-nerd-hurd: the deck-state model and its probability arithmetic

    A shallow embedding of [pandemic/cities.go] and [pandemic/game_state.go].

    Conventions of the embedding.
    - Go's [int] is [Z]; [len] of a slice is [Z.of_nat (length _)]; integer
      [/] and [%] are [Z.quot] and [Z.rem] (truncation toward zero), and the
      run-time panic of an integer division by zero is a result of its own.
    - The cities live behind pointers ([[]*City]) and are mutated in place.
      The registry is a list of records, a mutation through the pointer
      returned by [GetCity] rewrites the first record with that name, and
      every method returns the state it leaves behind next to its result,
      also when it fails.
    - [float64] is idealised as exact rational arithmetic ([Q]); rounding is
      not modelled.  Every float division of the embedded code has a
      non-zero divisor (see [probabilityOfEpidemic_divisor] and
      [ProbabilityOfCity_divisors]), so no infinity or NaN
      is lost by this.
*)

From Stdlib Require Import ZArith QArith Qround Lia Lqa.
From stdpp Require Import base decidable option list strings pretty gmap sets.

Local Open Scope Z_scope.

(** ** Data model (cities.go) *)

Definition CityName := string.

(** Modelled from the spec: [DiseaseType] and [PanicLevel] are declared in a
    file of the package that is not among the sources; the spec calls the
    former a category tag.  No embedded operation inspects either. *)
Definition DiseaseType := string.
Definition PanicLevel := Z.

Record City := mkCity {
  Name          : CityName;
  Disease       : DiseaseType;
  Panic         : PanicLevel;
  Neighbors     : list string;
  NumInfections : Z;
  Quarantined   : bool
}.

(** [City{}], Go's zero value. *)
Definition City_zero : City := mkCity "" "" 0 [] 0 false.

Record CityCard := mkCityCard {
  Card_City  : City;
  IsEpidemic : bool
}.

Record CityDeck := mkCityDeck {
  CD_Drawn : list CityCard;
  CD_All   : list CityCard
}.

(** [Cities.Cities], a slice of pointers owned by the registry. *)
Definition Cities := list City.

(** Errors are built with [fmt.Errorf]; one constructor per call site. *)
Inductive error :=
| ErrAlreadyDrawn (cn : CityName)        (* "%v has already been drawn from the city deck" *)
| ErrNoCityInDeck (cn : CityName)        (* "No city called %v in the city deck" *)
| ErrEpidemicsExhausted (drawn : Z)      (* "Already drawn %v epidemics this game, ..." *)
| ErrNoCityNamed (cn : CityName)         (* "No city named %v" *)
| ErrAlreadyQuarantined (cn : CityName)  (* "%v is already quarantined" *)
| ErrNotQuarantined (cn : CityName)      (* "%v is not quarantined " *)
| ErrInfectionNotFound (cn : CityName)   (* infection deck: NotFound *)
| ErrInfectionDuplicateDraw (cn : CityName). (* infection deck: DuplicateDraw *)

(** What a method returning [error] hands back: [nil], an error, or a
    run-time panic that unwinds the call. *)
Inductive outcome :=
| Done
| Failed (e : error)
| Panicked.

(** Go's 64-bit [int]: the value a result wraps to. *)
Definition int_wrap (z : Z) : Z := (z + 2 ^ 63) mod 2 ^ 64 - 2 ^ 63.

Definition len {A} (l : list A) : Z := Z.of_nat (length l).

(** ** Location registry *)

Definition name_is (cn : CityName) (c : City) : bool := bool_decide (Name c = cn).

(** [Cities.GetCity]: the first city with that name; [None] is the error
    "No city named ...". *)
Fixpoint GetCity (cs : Cities) (cn : CityName) : option City :=
  match cs with
  | [] => None
  | c :: rest => if name_is cn c then Some c else GetCity rest cn
  end.

(** A write through the pointer [GetCity] returned. *)
Fixpoint Cities_update (cs : Cities) (cn : CityName) (f : City → City) : Cities :=
  match cs with
  | [] => []
  | c :: rest => if name_is cn c then f c :: rest else c :: Cities_update rest cn f
  end.

Definition CityNames (cs : Cities) : list CityName := map Name cs.

(** [Cities.CityCards]: a copy of every city, then the epidemic cards. *)
Definition CityCards (cs : Cities) (epidemicCount : Z) : list CityCard :=
  map (λ c, mkCityCard c false) cs
  ++ repeat (mkCityCard City_zero true) (Z.to_nat epidemicCount).

(** ** City methods *)

Definition City_Infect (c : City) : bool * City :=
  if NumInfections c =? 3 then (true, c)
  else (false, mkCity (Name c) (Disease c) (Panic c) (Neighbors c)
                      (int_wrap (NumInfections c + 1)) (Quarantined c)).

Definition City_Epidemic (c : City) : City :=
  mkCity (Name c) (Disease c) (Panic c) (Neighbors c) 3 (Quarantined c).

Definition City_Quarantine (c : City) : City :=
  mkCity (Name c) (Disease c) (Panic c) (Neighbors c) (NumInfections c) true.

Definition City_RemoveQuarantine (c : City) : City :=
  mkCity (Name c) (Disease c) (Panic c) (Neighbors c) (NumInfections c) false.

Definition City_SetInfections (infections : Z) (c : City) : City :=
  mkCity (Name c) (Disease c) (Panic c) (Neighbors c) infections (Quarantined c).

(** ** City deck *)

Definition Total (c : CityDeck) : Z := len (CD_All c).

Definition NumEpidemics (c : CityDeck) : Z := len (filter (λ card, IsEpidemic card = true) (CD_All c)).

Definition EpidemicsDrawn (c : CityDeck) : Z := len (filter (λ card, IsEpidemic card = true) (CD_Drawn c)).

(** [cardsPerEpidemic]: [None] is the panic of [c.Total() / 0]. *)
Definition cardsPerEpidemic (c : CityDeck) : option Z :=
  if NumEpidemics c =? 0 then None else Some (Z.quot (Total c) (NumEpidemics c)).

Definition card_named (cn : CityName) (card : CityCard) : bool :=
  bool_decide (Name (Card_City card) = cn).

(** [CityDeck.Draw]. *)
Definition CityDeck_Draw (cn : CityName) (c : CityDeck) : outcome * CityDeck :=
  if existsb (card_named cn) (CD_Drawn c) then (Failed (ErrAlreadyDrawn cn), c)
  else match find (card_named cn) (CD_All c) with
       | Some card => (Done, mkCityDeck (CD_Drawn c ++ [card]) (CD_All c))
       | None => (Failed (ErrNoCityInDeck cn), c)
       end.

(** [CityDeck.DrawEpidemic]. *)
Definition CityDeck_DrawEpidemic (c : CityDeck) : outcome * CityDeck :=
  let totalEpis := NumEpidemics c in
  let drawnEpis := EpidemicsDrawn c in
  if drawnEpis >=? totalEpis then (Failed (ErrEpidemicsExhausted drawnEpis), c)
  else (Done, mkCityDeck (CD_Drawn c ++ [mkCityCard City_zero true]) (CD_All c)).

(** [CityDeck.probabilityOfEpidemic]; [None] is a division panic, of
    [cardsPerEpidemic] or of [len(c.Drawn) % 0]. *)
Definition probabilityOfEpidemic (c : CityDeck) : option Q :=
  match cardsPerEpidemic c with
  | None => None
  | Some cpe =>
      if cpe =? 0 then None
      else
        let currentPhase := Qfloor (inject_Z (len (CD_Drawn c)) / inject_Z cpe) in
        if currentPhase =? EpidemicsDrawn c
        then Some (2 / inject_Z (cpe - Z.rem (len (CD_Drawn c)) cpe))%Q
        else Some 0%Q
  end.

(** ** Infection deck

    [InfectionDeck] and its methods are declared in a file of the package
    that is not among the sources.  The sources use the fields [Striations]
    (indexed, [len]) and [Drawn] ([len], [Contains]) and the methods
    [Members], [Contains], [Size], [BottomStriation], [Draw],
    [PullFromBottom], [ShuffleDrawn] and [ProbabilityOfDrawing]. *)

(** Modelled from the spec: a striation is an unordered set of location
    names. *)
Abbreviation Striation := (gset CityName).

(** Modelled from the spec: the striated deck is an ordered sequence of
    striations plus a drawn pile, an ordered list, most recent first. *)
Record InfectionDeck := mkInfectionDeck {
  ID_Drawn      : list CityName;
  ID_Striations : list Striation
}.

(** Modelled from the spec: [Contains] is membership, on a striation and on
    the drawn pile. *)
Definition Contains (s : Striation) (cn : CityName) : bool := bool_decide (cn ∈ s).
Definition Drawn_Contains (d : list CityName) (cn : CityName) : bool := bool_decide (cn ∈ d).

(** Modelled from the spec: size is the cardinality of the member set,
    members the set as a sequence. *)
Definition Size (s : Striation) : Z := Z.of_nat (size s).
Definition Members (s : Striation) : list CityName := elements s.

(** Modelled from the spec: at game start, a single striation containing the
    whole catalog and an empty drawn pile. *)
Definition NewInfectionDeck (cities : list CityName) : InfectionDeck :=
  mkInfectionDeck [] [list_to_set cities].

(** Modelled from the spec: [bottomStriation] is the first non-empty
    striation, searched from index 0; the spec does not say what is returned
    when there is none, the empty striation stands for it. *)
Fixpoint first_nonempty (l : list Striation) : Striation :=
  match l with
  | [] => ∅
  | s :: rest => if bool_decide (s = ∅) then first_nonempty rest else s
  end.

Definition BottomStriation (d : InfectionDeck) : Striation :=
  first_nonempty (ID_Striations d).

(** Modelled from the spec: [draw(name)] fails with NotFound if the name is
    absent from every striation, with DuplicateDraw when it is in the drawn
    pile already; otherwise it removes the name from whichever striation
    contains it and pushes it onto the drawn pile.  A striation left empty
    stays in the sequence. *)
Definition InfectionDeck_Draw (cn : CityName) (d : InfectionDeck) : outcome * InfectionDeck :=
  if existsb (λ s, Contains s cn) (ID_Striations d)
  then (Done, mkInfectionDeck (cn :: ID_Drawn d) ((λ s, s ∖ {[cn]}) <$> ID_Striations d))
  else if Drawn_Contains (ID_Drawn d) cn
       then (Failed (ErrInfectionDuplicateDraw cn), d)
       else (Failed (ErrInfectionNotFound cn), d).

(** Modelled from the spec: [pullFromBottom(name)] fails with NotFound if the
    name is not in the drawn pile, and pulls exactly the named entry out of
    it.  The spec's restack property and its partition invariant have the
    pulled entry in the pile that [shuffleDrawn] restacks next, so the entry
    taken out of its place is kept as the pile's most recent one. *)
Definition InfectionDeck_PullFromBottom (cn : CityName) (d : InfectionDeck) : outcome * InfectionDeck :=
  if Drawn_Contains (ID_Drawn d) cn
  then (Done, mkInfectionDeck (cn :: filter (λ x, x ≠ cn) (ID_Drawn d)) (ID_Striations d))
  else (Failed (ErrInfectionNotFound cn), d).

(** Modelled from the spec: [shuffleDrawn] inserts the entire drawn pile as
    one brand-new striation at index 0 and clears the pile. *)
Definition InfectionDeck_ShuffleDrawn (d : InfectionDeck) : InfectionDeck :=
  mkInfectionDeck [] (list_to_set (ID_Drawn d) :: ID_Striations d).

(** Modelled from the spec: [probabilityOfDrawing(name, infectionRate)] is
    [infectionRate / (1 + drawnPileSize)] for a name in the drawn pile,
    [1 / bottomStriation.size()] for a name in the bottom striation, 0
    otherwise. *)
Definition ProbabilityOfDrawing (d : InfectionDeck) (cn : CityName) (infectionRate : Z) : Q :=
  if Drawn_Contains (ID_Drawn d) cn
  then (inject_Z infectionRate / (1 + inject_Z (len (ID_Drawn d))))%Q
  else if Contains (BottomStriation d) cn
       then (1 / inject_Z (Size (BottomStriation d)))%Q
       else 0%Q.

(** ** Game state (game_state.go) *)

Definition EpidemicsPerGame : Z := 5.
Definition NumInfectionCards : Z := 48.

(** Modelled from the spec: [DiseaseData] is declared outside the sources, a
    static table from a category tag to display data; only its tag is kept. *)
Record DiseaseData := mkDiseaseData { DD_Type : DiseaseType }.

Record GameState := mkGameState {
  GS_Cities        : Cities;
  GS_CityDeck      : CityDeck;
  GS_DiseaseData   : list DiseaseData;
  GS_InfectionDeck : InfectionDeck;
  GS_InfectionRate : Z;
  GS_Outbreaks     : Z;
  GS_GameName      : string
}.

Definition set_Cities (gs : GameState) (cs : Cities) : GameState :=
  mkGameState cs (GS_CityDeck gs) (GS_DiseaseData gs) (GS_InfectionDeck gs)
              (GS_InfectionRate gs) (GS_Outbreaks gs) (GS_GameName gs).

Definition set_CityDeck (gs : GameState) (cd : CityDeck) : GameState :=
  mkGameState (GS_Cities gs) cd (GS_DiseaseData gs) (GS_InfectionDeck gs)
              (GS_InfectionRate gs) (GS_Outbreaks gs) (GS_GameName gs).

Definition set_InfectionDeck (gs : GameState) (d : InfectionDeck) : GameState :=
  mkGameState (GS_Cities gs) (GS_CityDeck gs) (GS_DiseaseData gs) d
              (GS_InfectionRate gs) (GS_Outbreaks gs) (GS_GameName gs).

(** [NewGame], after the catalog file is read and parsed into [cities]. *)
Definition NewGame (cities : Cities) (gameName : string) : GameState :=
  mkGameState cities
              (mkCityDeck [] (CityCards cities EpidemicsPerGame))
              (map mkDiseaseData ["Yellow"; "Red"; "Black"; "Blue"; "Faded"])
              (NewInfectionDeck (CityNames cities))
              2 0 gameName.

(** [GameState.Infect]. *)
Definition GameState_Infect (gs : GameState) (cn : CityName) : outcome * GameState :=
  let (err, d) := InfectionDeck_Draw cn (GS_InfectionDeck gs) in
  let gs1 := set_InfectionDeck gs d in
  match err with
  | Done =>
      match GetCity (GS_Cities gs1) cn with
      | None => (Failed (ErrNoCityNamed cn), gs1)
      | Some city =>
          if Quarantined city
          then (Done, set_Cities gs1 (Cities_update (GS_Cities gs1) cn City_RemoveQuarantine))
          else (Done, set_Cities gs1 (Cities_update (GS_Cities gs1) cn (λ c, snd (City_Infect c))))
      end
  | _ => (err, gs1)
  end.

(** [GameState.Epidemic].  The error of [GetCity] is dropped there, so a
    name without a city is a nil dereference at [city.Quarantined]. *)
Definition GameState_Epidemic (gs : GameState) (cn : CityName) : outcome * GameState :=
  let (err, d) := InfectionDeck_PullFromBottom cn (GS_InfectionDeck gs) in
  let gs1 := set_InfectionDeck gs d in
  match err with
  | Done =>
      let (err, cd) := CityDeck_DrawEpidemic (GS_CityDeck gs1) in
      let gs2 := set_CityDeck gs1 cd in
      match err with
      | Done =>
          match GetCity (GS_Cities gs2) cn with
          | None => (Panicked, gs2)
          | Some city =>
              if Quarantined city
              then (Done, set_Cities gs2 (Cities_update (GS_Cities gs2) cn City_RemoveQuarantine))
              else
                let gs3 := set_Cities gs2 (Cities_update (GS_Cities gs2) cn City_Epidemic) in
                (Done, set_InfectionDeck gs3 (InfectionDeck_ShuffleDrawn (GS_InfectionDeck gs3)))
          end
      | _ => (err, gs2)
      end
  | _ => (err, gs1)
  end.

(** [GameState.Quarantine]. *)
Definition GameState_Quarantine (gs : GameState) (cn : CityName) : outcome * GameState :=
  match GetCity (GS_Cities gs) cn with
  | None => (Failed (ErrNoCityNamed cn), gs)
  | Some city =>
      if Quarantined city then (Failed (ErrAlreadyQuarantined cn), gs)
      else (Done, set_Cities gs (Cities_update (GS_Cities gs) cn City_Quarantine))
  end.

(** [GameState.RemoveQuarantine]. *)
Definition GameState_RemoveQuarantine (gs : GameState) (cn : CityName) : outcome * GameState :=
  match GetCity (GS_Cities gs) cn with
  | None => (Failed (ErrNoCityNamed cn), gs)
  | Some city =>
      if negb (Quarantined city) then (Failed (ErrNotQuarantined cn), gs)
      else (Done, set_Cities gs (Cities_update (GS_Cities gs) cn City_RemoveQuarantine))
  end.

(** [GameState.ProbabilityOfCity]; [None] is the division panic of
    [probabilityOfEpidemic]. *)
Definition ProbabilityOfCity (gs : GameState) (cn : CityName) : option Q :=
  match GetCity (GS_Cities gs) cn with
  | None => Some 0%Q
  | Some city =>
      if Quarantined city then Some 0%Q
      else
        match probabilityOfEpidemic (GS_CityDeck gs) with
        | None => None
        | Some pEpi =>
            let bottom := BottomStriation (GS_InfectionDeck gs) in
            let pEpiDraw :=
              if Contains bottom cn then (1 / inject_Z (Size bottom))%Q
              else if Drawn_Contains (ID_Drawn (GS_InfectionDeck gs)) cn
                   then (inject_Z (GS_InfectionRate gs)
                         / (1 + inject_Z (len (ID_Drawn (GS_InfectionDeck gs)))))%Q
                   else 0%Q in
            let pNoEpiDraw :=
              ProbabilityOfDrawing (GS_InfectionDeck gs) cn (GS_InfectionRate gs) in
            Some (pEpi * pEpiDraw + (1 - pEpi) * pNoEpiDraw)%Q
        end
  end.

(** [prob == 0.0]. *)
Definition is_zero (q : Q) : bool := Qeq_bool q 0.

(** [GameState.CanOutbreak]; [None] when [ProbabilityOfCity] panics. *)
Definition CanOutbreak (gs : GameState) (cn : CityName) : option bool :=
  match GetCity (GS_Cities gs) cn with
  | None => Some false
  | Some city =>
      if NumInfections city =? 0 then Some false
      else
        match ProbabilityOfCity gs cn with
        | None => None
        | Some prob =>
            if is_zero prob then Some false
            else Some ((NumInfections city =? 3)
                       || Contains (BottomStriation (GS_InfectionDeck gs)) cn)
        end
  end.

(** * Definitions for the properties *)

(** The spec's [cardsPerShockPhase] and [probabilityOfShockThisDraw], in its
    own words, over the four counts it names. *)
Definition spec_cardsPerShockPhase (totalEntries shockMarkerCount : Z) : Z :=
  totalEntries / shockMarkerCount.

Definition spec_probabilityOfShockThisDraw
    (totalEntries shockMarkerCount drawnCount shockMarkersDrawn : Z) : Q :=
  let cardsPerShockPhase := spec_cardsPerShockPhase totalEntries shockMarkerCount in
  let phase := drawnCount / cardsPerShockPhase in
  if phase =? shockMarkersDrawn
  then (2 / inject_Z (cardsPerShockPhase - drawnCount mod cardsPerShockPhase))%Q
  else 0%Q.

(** A deck of 90 cities and 6 epidemics with five city cards drawn. *)
Definition catalog90 : Cities :=
  map (λ n, mkCity (pretty n) "Blue" 0 [] 0 false) (seq 0 90).

Definition deck96 : CityDeck :=
  let all := CityCards catalog90 6 in mkCityDeck (take 5 all) all.

(** A two-city game used by the examples below. *)
Definition atlanta : City := mkCity "Atlanta" "Blue" 0 ["Lagos"] 0 false.
Definition lagos : City := mkCity "Lagos" "Yellow" 0 ["Atlanta"] 0 false.
Definition small_game : GameState := NewGame [atlanta; lagos] "demo".

(** Atlanta quarantined, on a city deck without any epidemic card. *)
Definition quarantined_game : GameState :=
  mkGameState [City_Quarantine atlanta; lagos]
              (mkCityDeck [] [mkCityCard atlanta false; mkCityCard lagos false])
              [] (NewInfectionDeck ["Atlanta"; "Lagos"]) 2 0 "demo".

(** Lagos at level 3 and Atlanta at level 0 in the opening position. *)
Definition outbreak_game : GameState :=
  NewGame [atlanta; City_SetInfections 3 lagos] "demo".

(** The mutating entry points: the four methods of [GameState], and the deck
    methods a caller reaches through its exported fields (the view's
    "infect" command calls [InfectionDeck.Draw] itself). *)
Inductive operation :=
| OpInfect (cn : CityName)
| OpEpidemic (cn : CityName)
| OpQuarantine (cn : CityName)
| OpRemoveQuarantine (cn : CityName)
| OpCityDeckDraw (cn : CityName)
| OpCityDeckDrawEpidemic
| OpInfectionDeckDraw (cn : CityName)
| OpPullFromBottom (cn : CityName)
| OpShuffleDrawn.

Definition on_CityDeck (f : CityDeck → outcome * CityDeck) (gs : GameState) : outcome * GameState :=
  let (err, cd) := f (GS_CityDeck gs) in (err, set_CityDeck gs cd).

Definition on_InfectionDeck (f : InfectionDeck → outcome * InfectionDeck) (gs : GameState)
  : outcome * GameState :=
  let (err, d) := f (GS_InfectionDeck gs) in (err, set_InfectionDeck gs d).

Definition run (op : operation) (gs : GameState) : outcome * GameState :=
  match op with
  | OpInfect cn => GameState_Infect gs cn
  | OpEpidemic cn => GameState_Epidemic gs cn
  | OpQuarantine cn => GameState_Quarantine gs cn
  | OpRemoveQuarantine cn => GameState_RemoveQuarantine gs cn
  | OpCityDeckDraw cn => on_CityDeck (CityDeck_Draw cn) gs
  | OpCityDeckDrawEpidemic => on_CityDeck CityDeck_DrawEpidemic gs
  | OpInfectionDeckDraw cn => on_InfectionDeck (InfectionDeck_Draw cn) gs
  | OpPullFromBottom cn => on_InfectionDeck (InfectionDeck_PullFromBottom cn) gs
  | OpShuffleDrawn => on_InfectionDeck (λ d, (Done, InfectionDeck_ShuffleDrawn d)) gs
  end.

(** The states a session started by [NewGame] on [cities] goes through.  An
    operation that fails still leaves a state; one that panics ends the
    program. *)
Inductive reachable (cities : Cities) (gameName : string) : GameState → Prop :=
| reachable_new : reachable cities gameName (NewGame cities gameName)
| reachable_run gs op :
    reachable cities gameName gs →
    fst (run op gs) ≠ Panicked →
    reachable cities gameName (snd (run op gs)).

(** Running a session script; [None] when one of its operations panics. *)
Fixpoint run_all (ops : list operation) (gs : GameState) : option GameState :=
  match ops with
  | [] => Some gs
  | op :: rest =>
      match fst (run op gs) with
      | Panicked => None
      | _ => run_all rest (snd (run op gs))
      end
  end.

(** The values of Go's [int]. *)
Definition is_int (z : Z) : Prop := - 2 ^ 63 <= z < 2 ^ 63.

(** An infection level of at most 3, and one in 0..3. *)
Definition level_le_3 (c : City) : Prop := is_int (NumInfections c) ∧ NumInfections c <= 3.

Definition level_ok (c : City) : Prop := 0 <= NumInfections c <= 3.

Definition levels_ok (cs : Cities) : Prop := Forall level_ok cs.

(** A game whose infection deck holds a card, "Lagos", that the registry has
    no city for: a saved game [LoadGame] accepts. *)
Definition orphan_game : GameState :=
  mkGameState [atlanta]
              (mkCityDeck [] (CityCards [atlanta] EpidemicsPerGame))
              [] (NewInfectionDeck ["Atlanta"; "Lagos"]) 2 0 "demo".

(** Five epidemics played, then Atlanta and Lagos infected: the city deck
    has no epidemic card left. *)
Definition exhausted_script : list operation :=
  concat (replicate 5 [OpInfect "Atlanta"; OpEpidemic "Atlanta"])
  ++ [OpInfect "Atlanta"; OpInfect "Lagos"].

Definition exhausted_game : GameState :=
  mkGameState [City_SetInfections 3 atlanta; City_SetInfections 1 lagos]
              (mkCityDeck (replicate 5 (mkCityCard City_zero true))
                          (CityCards [atlanta; lagos] EpidemicsPerGame))
              (map mkDiseaseData ["Yellow"; "Red"; "Black"; "Blue"; "Faded"])
              (mkInfectionDeck ["Lagos"; "Atlanta"] (replicate 6 ∅)) 2 0 "demo".

(** Atlanta and Lagos drawn, Atlanta quarantined. *)
Definition shock_script : list operation :=
  [OpInfect "Atlanta"; OpInfect "Lagos"; OpQuarantine "Atlanta"].

Definition shock_game : GameState :=
  mkGameState [City_Quarantine (City_SetInfections 1 atlanta); City_SetInfections 1 lagos]
              (mkCityDeck [] (CityCards [atlanta; lagos] EpidemicsPerGame))
              (map mkDiseaseData ["Yellow"; "Red"; "Black"; "Blue"; "Faded"])
              (mkInfectionDeck ["Lagos"; "Atlanta"] [∅]) 2 0 "demo".

(** No drawn card is in a striation. *)
Definition deck_disjoint (d : InfectionDeck) : Prop :=
  ∀ (s : Striation) (x : CityName), s ∈ ID_Striations d → x ∈ ID_Drawn d → x ∉ s.

(** What every state of a session keeps: the infection rate [NewGame] sets,
    its five epidemic cards, and a drawn pile apart from the striations. *)
Definition session_inv (gs : GameState) : Prop :=
  GS_InfectionRate gs = 2
  ∧ NumEpidemics (GS_CityDeck gs) = EpidemicsPerGame
  ∧ deck_disjoint (GS_InfectionDeck gs).

(** ** The rest of the package: sorting, prefix lookup, the view's command *)

(** [names[i]] for a Go [int] index; [None] is the index-out-of-range
    panic. *)
Definition index {A} (l : list A) (i : Z) : option A :=
  if 0 <=? i then l !! Z.to_nat i else None.

(** [strings.Compare(a, b) < 0]: the byte-wise lexicographic order. *)
Definition string_lt (a b : string) : bool :=
  match String.compare a b with Lt => true | _ => false end.

(** [byInfectionRate.Len]. *)
Definition Len (names : list CityName) : Z := len names.

(** [byInfectionRate.Less]; [None] is a panic: an index out of range, or the
    nil city of a name [GetCity] does not find (its error is dropped). *)
Definition Less (names : list CityName) (cities : Cities) (i j : Z) : option bool :=
  match index names i, index names j with
  | Some nameI, Some nameJ =>
      match GetCity cities nameI, GetCity cities nameJ with
      | Some cityI, Some cityJ =>
          if NumInfections cityI >? NumInfections cityJ then Some true
          else if NumInfections cityI <? NumInfections cityJ then Some false
          else Some (string_lt nameI nameJ)
      | _, _ => None
      end
  | _, _ => None
  end.

(** [Cities.WithDisease]. *)
Definition WithDisease (cs : Cities) (disease : DiseaseType) : list City :=
  filter (λ city, Disease city = disease) cs.

(** The two errors of [GetCityByPrefix]. *)
Inductive prefix_error :=
| ErrAmbiguous (prefix : string)     (* "'%v' is ambiguous" *)
| ErrNotAPrefix (prefix : string).   (* "%v is not a prefix for any city" *)

(** [strings.HasPrefix(s, prefix)]. *)
Definition HasPrefix (s prefix : string) : bool := String.prefix prefix s.

Section PrefixLookup.
(** [strings.ToLower], Go's Unicode lowering, is a parameter. *)
Variable ToLower : string → string.

Definition prefix_matches (prefix : string) (c : City) : bool :=
  HasPrefix (ToLower (Name c)) (ToLower prefix).

(** The loop of [GetCityByPrefix], [ret] being the match found so far. *)
Fixpoint GetCityByPrefix_from (ret : option City) (cs : Cities) (prefix : string)
  : prefix_error + City :=
  match cs with
  | [] => match ret with
          | None => inl (ErrNotAPrefix prefix)
          | Some c => inr c
          end
  | c :: rest =>
      if prefix_matches prefix c
      then match ret with
           | Some _ => inl (ErrAmbiguous prefix)
           | None => GetCityByPrefix_from (Some c) rest prefix
           end
      else GetCityByPrefix_from ret rest prefix
  end.

(** [Cities.GetCityByPrefix]. *)
Definition GetCityByPrefix (cs : Cities) (prefix : string) : prefix_error + City :=
  GetCityByPrefix_from None cs prefix.
End PrefixLookup.

(** A lowering of the ASCII letters, for the examples. *)
Definition ascii_lower (a : Ascii.ascii) : Ascii.ascii :=
  let n := Ascii.nat_of_ascii a in
  if ((65 <=? n) && (n <=? 90))%nat then Ascii.ascii_of_nat (n + 32) else a.

Fixpoint ascii_ToLower (s : string) : string :=
  match s with
  | EmptyString => EmptyString
  | String a rest => String (ascii_lower a) (ascii_ToLower rest)
  end.

(** [k] calls of [CityDeck.DrawEpidemic] in a row, stopped by the first
    error. *)
Fixpoint DrawEpidemic_times (k : nat) (c : CityDeck) : outcome * CityDeck :=
  match k with
  | O => (Done, c)
  | S k' =>
      let (err, c') := CityDeck_DrawEpidemic c in
      match err with
      | Done => DrawEpidemic_times k' c'
      | _ => (err, c')
      end
  end.

(** What the session keeps of the city deck: the epidemic cards are the zero
    card, at most as many are drawn as the deck has, the drawn city cards
    have distinct names, and every drawn card is a card of the deck. *)
Definition is_city_card (card : CityCard) : Prop := IsEpidemic card = false.

Definition drawn_city_names (c : CityDeck) : list CityName :=
  map (λ card, Name (Card_City card)) (filter is_city_card (CD_Drawn c)).

Definition deck_inv (c : CityDeck) : Prop :=
  (∀ card, card ∈ CD_All c ∨ card ∈ CD_Drawn c → IsEpidemic card = true →
           card = mkCityCard City_zero true)
  ∧ EpidemicsDrawn c <= NumEpidemics c
  ∧ NoDup (drawn_city_names c)
  ∧ (∀ card, card ∈ CD_Drawn c → card ∈ CD_All c)
  ∧ 1 <= NumEpidemics c.

(** *** The view's command line (the "Commands" view of the terminal)

    [gocui] is the terminal library; of a call of [runCommand] the embedding
    keeps the text of the command view, the game state and the lines written
    to the console view. *)

(** The cutset of [strings.Trim(buffer, "\n\t\r ")]. *)
Definition in_cutset (a : Ascii.ascii) : bool :=
  bool_decide (a = Ascii.ascii_of_nat 10) || bool_decide (a = Ascii.ascii_of_nat 9)
  || bool_decide (a = Ascii.ascii_of_nat 13) || bool_decide (a = Ascii.Space).

Fixpoint trim_left (s : string) : string :=
  match s with
  | EmptyString => EmptyString
  | String a rest => if in_cutset a then trim_left rest else s
  end.

Fixpoint trim_right (s : string) : string :=
  match s with
  | EmptyString => EmptyString
  | String a rest =>
      match trim_right rest with
      | EmptyString => if in_cutset a then EmptyString else String a EmptyString
      | rest' => String a rest'
      end
  end.

(** [strings.Trim] for that cutset: its bytes are ASCII, so the trimming is
    byte-wise. *)
Definition Trim (s : string) : string := trim_right (trim_left s).

(** [strings.Split(s, " ")]. *)
Fixpoint Split (s : string) : list string :=
  match s with
  | EmptyString => [EmptyString]
  | String a rest =>
      if bool_decide (a = Ascii.Space) then EmptyString :: Split rest
      else match Split rest with
           | [] => [String a EmptyString]
           | word :: words => String a word :: words
           end
  end.

(** A line written to the console view. *)
Inductive console_line :=
| SayWarning (e : error)            (* colorWarning(err) *)
| SayInfected (args : string)       (* "Infected %v\n" *)
| SayUnrecognized (cmd : string).   (* "Unrecognized command %v\n" *)

(** [PandemicView.runCommand]: the outcome ([Panicked] for
    [commandArgs[1]] out of range), the game state and the console lines.
    The clearing of the command view at the end is not kept. *)
Definition runCommand (gameState : GameState) (buffer : string)
  : outcome * GameState * list console_line :=
  let commandBuffer := Trim buffer in
  if bool_decide (commandBuffer = EmptyString) then (Done, gameState, [])
  else
    let commandArgs := Split commandBuffer in
    match commandArgs !! 0%nat, commandArgs !! 1%nat with
    | Some cmd, Some args =>
        if bool_decide (cmd = "infect") || bool_decide (cmd = "i")
        then
          let (err, d) := InfectionDeck_Draw args (GS_InfectionDeck gameState) in
          let gs' := set_InfectionDeck gameState d in
          match err with
          | Failed e => (Done, gs', [SayWarning e])
          | _ => (Done, gs', [SayInfected args])
          end
        else (Done, gameState, [SayUnrecognized cmd])
    | _, _ => (Panicked, gameState, [])
    end.

(** A space among the bytes of a string. *)
Fixpoint contains_space (s : string) : bool :=
  match s with
  | EmptyString => false
  | String a rest => bool_decide (a = Ascii.Space) || contains_space rest
  end.

(** * Properties *)

(** ** Arithmetic of the embedding *)

Lemma len_nonneg {A} (l : list A) : 0 <= len l.
Proof. unfold len. lia. Qed.

Lemma int_wrap_id (z : Z) : - 2 ^ 63 <= z < 2 ^ 63 → int_wrap z = z.
Proof.
  intros Hz. unfold int_wrap.
  rewrite Z.mod_small by lia. lia.
Qed.

(** [int(math.Floor(float64(a) / float64(b)))] is the integer quotient. *)
Lemma Qfloor_div_inject (a b : Z) : 0 < b → Qfloor (inject_Z a / inject_Z b) = a / b.
Proof.
  intros Hb. destruct b as [|p|p]; try lia.
  unfold Qdiv, Qinv, inject_Z, Qmult, Qfloor. simpl.
  by rewrite Z.mul_1_r.
Qed.

Lemma NumEpidemics_le_Total (c : CityDeck) : 0 <= NumEpidemics c <= Total c.
Proof.
  unfold NumEpidemics, Total, len. split; [lia|].
  apply inj_le, length_filter.
Qed.

(** The phase size is at least one card whenever it is defined. *)
Lemma cardsPerEpidemic_pos (c : CityDeck) (cpe : Z) :
  cardsPerEpidemic c = Some cpe → 1 <= cpe.
Proof.
  unfold cardsPerEpidemic. destruct (Z.eqb_spec (NumEpidemics c) 0) as [|Hne]; [done|].
  intros [= <-]. pose proof (NumEpidemics_le_Total c) as [H0 H1].
  rewrite Z.quot_div_nonneg by lia.
  apply Z.div_le_lower_bound; lia.
Qed.

Lemma cardsPerEpidemic_Some (c : CityDeck) :
  1 <= NumEpidemics c → cardsPerEpidemic c = Some (Total c / NumEpidemics c).
Proof.
  intros H. unfold cardsPerEpidemic.
  destruct (Z.eqb_spec (NumEpidemics c) 0); [lia|].
  pose proof (NumEpidemics_le_Total c).
  by rewrite Z.quot_div_nonneg by lia.
Qed.

(** The divisor of the float division in [probabilityOfEpidemic]. *)
Lemma probabilityOfEpidemic_divisor (c : CityDeck) (cpe : Z) :
  cardsPerEpidemic c = Some cpe → 1 <= cpe - Z.rem (len (CD_Drawn c)) cpe <= cpe.
Proof.
  intros H%cardsPerEpidemic_pos.
  pose proof (len_nonneg (CD_Drawn c)).
  pose proof (Z.rem_bound_pos (len (CD_Drawn c)) cpe). lia.
Qed.

(** ** C4: the phase probability *)

(** C4. For every city deck with at least one epidemic card,
    [probabilityOfEpidemic] returns the spec's phase probability of its
    counts: 2 / (cardsPerShockPhase - drawnCount mod cardsPerShockPhase) when
    floor(drawnCount / cardsPerShockPhase) is the number of epidemics drawn,
    and 0 otherwise; with 96 cards, 6 epidemics and 5 cards drawn, none of
    them an epidemic, that is 2/11. *)
Theorem probabilityOfEpidemic_phase (c : CityDeck) :
  1 <= NumEpidemics c →
  probabilityOfEpidemic c
  = Some (spec_probabilityOfShockThisDraw
            (Total c) (NumEpidemics c) (len (CD_Drawn c)) (EpidemicsDrawn c))
  ∧ (Total c = 96 → NumEpidemics c = 6 → len (CD_Drawn c) = 5 → EpidemicsDrawn c = 0 →
     probabilityOfEpidemic c = Some (2 # 11)).
Proof.
  intros Hn.
  assert (probabilityOfEpidemic c
          = Some (spec_probabilityOfShockThisDraw
                    (Total c) (NumEpidemics c) (len (CD_Drawn c)) (EpidemicsDrawn c))) as Heq.
  { unfold probabilityOfEpidemic, spec_probabilityOfShockThisDraw, spec_cardsPerShockPhase.
    pose proof (cardsPerEpidemic_pos c _ (cardsPerEpidemic_Some c Hn)) as Hpos.
    rewrite (cardsPerEpidemic_Some c Hn).
    set (cpe := Total c / NumEpidemics c) in *.
    destruct (Z.eqb_spec cpe 0); [lia|].
    pose proof (len_nonneg (CD_Drawn c)).
    rewrite Qfloor_div_inject by lia.
    rewrite Z.rem_mod_nonneg by lia.
    by destruct (_ =? _). }
  split; [exact Heq|].
  intros Ht Hm Hd He. rewrite Heq, Ht, Hm, Hd, He. reflexivity.
Qed.

Lemma probabilityOfEpidemic_phase_witness :
  1 <= NumEpidemics deck96
  ∧ Total deck96 = 96
  ∧ cardsPerEpidemic deck96 = Some 16
  ∧ probabilityOfEpidemic deck96 = Some (2 # 11).
Proof.
  assert (1 <= NumEpidemics deck96) as H by (vm_compute; discriminate).
  split; [exact H|]. split; [reflexivity|]. split; [reflexivity|].
  destruct (probabilityOfEpidemic_phase deck96 H) as [_ H96].
  apply H96; reflexivity.
Defined.

(** ** C9: the unguarded division *)

Lemma NumEpidemics_CityCards (cs : Cities) (n : Z) (drawn : list CityCard) :
  0 <= n → NumEpidemics (mkCityDeck drawn (CityCards cs n)) = n.
Proof.
  intros Hn. unfold NumEpidemics, CityCards, len. simpl.
  rewrite filter_app, length_app.
  assert (filter (λ card, IsEpidemic card = true) (map (λ c, mkCityCard c false) cs) = []) as ->.
  { induction cs as [|c cs IH]; [done|]. simpl. rewrite filter_cons_False; [exact IH|]. simpl. discriminate. }
  assert (∀ k, filter (λ card, IsEpidemic card = true) (repeat (mkCityCard City_zero true) k)
               = repeat (mkCityCard City_zero true) k) as ->.
  { intros k. induction k as [|k IH]; [done|]. simpl. rewrite filter_cons_True by done. by rewrite IH. }
  rewrite repeat_length. simpl. lia.
Qed.

Lemma cardsPerEpidemic_None (c : CityDeck) : cardsPerEpidemic c = None ↔ NumEpidemics c = 0.
Proof.
  unfold cardsPerEpidemic. destruct (Z.eqb_spec (NumEpidemics c) 0); split; done.
Qed.

Lemma probabilityOfEpidemic_None (c : CityDeck) :
  probabilityOfEpidemic c = None ↔ NumEpidemics c = 0.
Proof.
  rewrite <- cardsPerEpidemic_None. unfold probabilityOfEpidemic.
  destruct (cardsPerEpidemic c) as [cpe|] eqn:E; [|done].
  apply cardsPerEpidemic_pos in E.
  destruct (Z.eqb_spec cpe 0); [lia|].
  destruct (_ =? _); split; done.
Qed.

(** C9. [cardsPerEpidemic] and [probabilityOfEpidemic] divide by
    [NumEpidemics()] without a guard: each panics exactly when the full card
    set holds no epidemic card and returns a value otherwise.  [NewGame]
    makes a deck with [EpidemicsPerGame] = 5 epidemic cards, on which both
    return. *)
Theorem epidemic_division_defined :
  (∀ c, cardsPerEpidemic c = None ↔ NumEpidemics c = 0)
  ∧ (∀ c, probabilityOfEpidemic c = None ↔ NumEpidemics c = 0)
  ∧ (∀ cities gameName,
       NumEpidemics (GS_CityDeck (NewGame cities gameName)) = 5
       ∧ is_Some (cardsPerEpidemic (GS_CityDeck (NewGame cities gameName)))
       ∧ is_Some (probabilityOfEpidemic (GS_CityDeck (NewGame cities gameName)))).
Proof.
  split; [exact cardsPerEpidemic_None|]. split; [exact probabilityOfEpidemic_None|].
  intros cities gameName.
  assert (NumEpidemics (GS_CityDeck (NewGame cities gameName)) = 5) as H5.
  { unfold NewGame. simpl. by apply NumEpidemics_CityCards. }
  split; [exact H5|].
  split; apply not_eq_None_Some;
    [rewrite cardsPerEpidemic_None | rewrite probabilityOfEpidemic_None]; lia.
Qed.

Lemma epidemic_division_defined_witness :
  cardsPerEpidemic (mkCityDeck [] [mkCityCard atlanta false]) = None
  ∧ probabilityOfEpidemic (mkCityDeck [] [mkCityCard atlanta false]) = None
  ∧ cardsPerEpidemic (GS_CityDeck small_game) = Some 1
  ∧ probabilityOfEpidemic (GS_CityDeck small_game) = Some 2%Q.
Proof.
  destruct epidemic_division_defined as (Hc & Hp & _).
  split; [by apply Hc|]. split; [by apply Hp|]. split; reflexivity.
Defined.

(** ** C8: drawing from the city deck *)

(** C8. [CityDeck.Draw(cn)] fails with the already-drawn error when a drawn
    card carries the name; otherwise it fails with the not-found error when
    no card of the full set carries it; otherwise it succeeds and the drawn
    list grows at its end by the first card of the full set with that name.
    A failed draw leaves the deck as it was. *)
Theorem CityDeck_Draw_cases (c : CityDeck) (cn : CityName) :
  ((∃ card, card ∈ CD_Drawn c ∧ Name (Card_City card) = cn) →
     CityDeck_Draw cn c = (Failed (ErrAlreadyDrawn cn), c))
  ∧ ((∀ card, card ∈ CD_Drawn c → Name (Card_City card) ≠ cn) →
     (∀ card, card ∈ CD_All c → Name (Card_City card) ≠ cn) →
     CityDeck_Draw cn c = (Failed (ErrNoCityInDeck cn), c))
  ∧ ((∀ card, card ∈ CD_Drawn c → Name (Card_City card) ≠ cn) →
     (∃ card, card ∈ CD_All c ∧ Name (Card_City card) = cn) →
     ∃ (i : nat) (card : CityCard),
       CD_All c !! i = Some card
       ∧ Name (Card_City card) = cn
       ∧ (∀ (j : nat) card', (j < i)%nat → CD_All c !! j = Some card' → Name (Card_City card') ≠ cn)
       ∧ CityDeck_Draw cn c = (Done, mkCityDeck (CD_Drawn c ++ [card]) (CD_All c))).
Proof.
  assert (∀ l, existsb (card_named cn) l = true ↔ ∃ card, card ∈ l ∧ Name (Card_City card) = cn) as Hex.
  { intros l. rewrite existsb_exists. unfold card_named.
    split; intros (card & Hin & Hn); exists card.
    - apply list_elem_of_In in Hin. by apply bool_decide_eq_true in Hn.
    - apply list_elem_of_In in Hin. by rewrite bool_decide_eq_true. }
  assert (∀ l, (∀ card, card ∈ l → Name (Card_City card) ≠ cn) → existsb (card_named cn) l = false) as Hnex.
  { intros l Hall. apply not_true_is_false. rewrite Hex. intros (card & Hin & Hn). by apply (Hall card). }
  assert (∀ l, find (card_named cn) l = None ↔ ∀ card, card ∈ l → Name (Card_City card) ≠ cn) as Hnone.
  { intros l. induction l as [|x l IH]; simpl.
    - split; [|done]. intros _ card Hin. by apply not_elem_of_nil in Hin.
    - unfold card_named at 1. case_bool_decide as Hx.
      + split; [done|]. intros Hall. exfalso. apply (Hall x); [left | done].
      + rewrite IH. split.
        * intros Hall card [->|Hin]%elem_of_cons; auto.
        * intros Hall card Hin. apply Hall. by right. }
  assert (∀ l card, find (card_named cn) l = Some card →
          ∃ i : nat, l !! i = Some card ∧ Name (Card_City card) = cn
                     ∧ ∀ (j : nat) card', (j < i)%nat → l !! j = Some card' → Name (Card_City card') ≠ cn) as Hsome.
  { intros l. induction l as [|x l IH]; simpl; [done|]. intros card.
    unfold card_named at 1. case_bool_decide as Hx.
    - intros [= <-]. exists 0%nat. split; [done|]. split; [done|]. intros j card' Hj. lia.
    - intros (i & Hi & Hn & Hlt)%IH. exists (S i). split; [done|]. split; [done|].
      intros [|j] card' Hj; simpl.
      + by intros [= <-].
      + apply Hlt. lia. }
  unfold CityDeck_Draw. split; [|split].
  - intros H%Hex. by rewrite H.
  - intros Hd Ha. rewrite (Hnex _ Hd). apply Hnone in Ha. by rewrite Ha.
  - intros Hd (card0 & Hin & Hn). rewrite (Hnex _ Hd).
    destruct (find (card_named cn) (CD_All c)) as [card|] eqn:E.
    + destruct (Hsome _ _ E) as (i & Hi & Hnm & Hlt). by exists i, card.
    + exfalso. rewrite Hnone in E. by apply (E card0).
Qed.

Lemma CityDeck_Draw_cases_witness :
  let c0 := GS_CityDeck small_game in
  let c1 := snd (CityDeck_Draw "Lagos" c0) in
  CityDeck_Draw "Lagos" c0 = (Done, mkCityDeck [mkCityCard lagos false] (CD_All c0))
  ∧ CityDeck_Draw "Lagos" c1 = (Failed (ErrAlreadyDrawn "Lagos"), c1)
  ∧ CityDeck_Draw "Paris" c1 = (Failed (ErrNoCityInDeck "Paris"), c1).
Proof.
  intros c0 c1.
  destruct (CityDeck_Draw_cases c0 "Lagos") as (_ & _ & Hok).
  destruct (CityDeck_Draw_cases c1 "Lagos") as (Hdup & _ & _).
  destruct (CityDeck_Draw_cases c1 "Paris") as (_ & Hnf & _).
  split; [|split].
  - destruct Hok as (i & card & Hi & Hn & Hfirst & ->).
    + intros card Hin. vm_compute in Hin. by apply not_elem_of_nil in Hin.
    + exists (mkCityCard lagos false). split; [|done].
      vm_compute. apply list_elem_of_In. simpl. tauto.
    + destruct i as [|[|i]].
      * vm_compute in Hi. injection Hi as <-. vm_compute in Hn. discriminate.
      * vm_compute in Hi. by injection Hi as <-.
      * exfalso. apply (Hfirst 1%nat (mkCityCard lagos false)); [lia|done|done].
  - apply Hdup. exists (mkCityCard lagos false). split; [|done].
    vm_compute. apply list_elem_of_In. simpl. tauto.
  - apply Hnf; intros card Hin%list_elem_of_In; vm_compute in Hin;
      intuition (subst; vm_compute; discriminate).
Defined.

(** ** C5: a quarantined city has probability 0 *)

(** C5. When the registry's city of that name has its quarantine flag set,
    [ProbabilityOfCity] returns 0 — before either deck is looked at, hence
    also on a deck without epidemic cards. *)
Theorem ProbabilityOfCity_quarantined (gs : GameState) (cn : CityName) (city : City) :
  GetCity (GS_Cities gs) cn = Some city →
  Quarantined city = true →
  ProbabilityOfCity gs cn = Some 0%Q.
Proof.
  intros Hget Hq. unfold ProbabilityOfCity. by rewrite Hget, Hq.
Qed.

Lemma ProbabilityOfCity_quarantined_witness :
  ProbabilityOfCity quarantined_game "Atlanta" = Some 0%Q
  ∧ ProbabilityOfCity quarantined_game "Lagos" = None.
Proof.
  split; [|reflexivity].
  apply (ProbabilityOfCity_quarantined quarantined_game "Atlanta" (City_Quarantine atlanta));
    reflexivity.
Defined.

(** ** The registry under a write *)

Lemma Cities_update_length (cs : Cities) (cn : CityName) (f : City → City) :
  length (Cities_update cs cn f) = length cs.
Proof. induction cs as [|c cs IH]; simpl; [done|]. destruct (name_is cn c); simpl; congruence. Qed.

(** A write changes the record at one index only, the one [GetCity] finds. *)
Lemma Cities_update_other (cs : Cities) (cn : CityName) (f : City → City) (i : nat) (c : City) :
  cs !! i = Some c → Name c ≠ cn → Cities_update cs cn f !! i = Some c.
Proof.
  revert i. induction cs as [|x cs IH]; intros i; simpl; [done|].
  unfold name_is at 1. case_bool_decide as Hx.
  - destruct i; simpl; [|done]. intros [= ->] Hne. done.
  - destruct i; simpl; [done|]. apply IH.
Qed.

Lemma set_InfectionDeck_same (gs : GameState) : set_InfectionDeck gs (GS_InfectionDeck gs) = gs.
Proof. by destruct gs. Qed.

(** ** C10: [Infect] and the city deck *)

(** C10. [GameState.Infect] leaves the city deck — full set and drawn list —
    as it was, whether it succeeds or fails; so it leaves the infection
    rate, the outbreak counter, the game name and the disease table, and
    every city with another name.  Only the infection deck and the named
    city can change. *)
Theorem GameState_Infect_frame (gs : GameState) (cn : CityName) :
  let gs' := snd (GameState_Infect gs cn) in
  GS_CityDeck gs' = GS_CityDeck gs
  ∧ GS_InfectionRate gs' = GS_InfectionRate gs
  ∧ GS_Outbreaks gs' = GS_Outbreaks gs
  ∧ GS_GameName gs' = GS_GameName gs
  ∧ GS_DiseaseData gs' = GS_DiseaseData gs
  ∧ length (GS_Cities gs') = length (GS_Cities gs)
  ∧ (∀ (i : nat) (c : City), GS_Cities gs !! i = Some c → Name c ≠ cn → GS_Cities gs' !! i = Some c).
Proof.
  unfold GameState_Infect.
  destruct (InfectionDeck_Draw cn (GS_InfectionDeck gs)) as [err d].
  destruct err; simpl; [|by repeat split..].
  destruct (GetCity (GS_Cities gs) cn) as [city|]; [|by repeat split].
  destruct (Quarantined city); simpl;
    repeat split; auto using Cities_update_length, Cities_update_other.
Qed.

Lemma GameState_Infect_frame_witness :
  fst (GameState_Infect small_game "Lagos") = Done
  ∧ GS_CityDeck (snd (GameState_Infect small_game "Lagos")) = GS_CityDeck small_game
  ∧ fst (GameState_Infect small_game "Paris") = Failed (ErrInfectionNotFound "Paris")
  ∧ GS_CityDeck (snd (GameState_Infect small_game "Paris")) = GS_CityDeck small_game
  ∧ GS_Cities (snd (GameState_Infect small_game "Lagos")) !! 0%nat = Some atlanta.
Proof.
  destruct (GameState_Infect_frame small_game "Lagos") as (Hdeck & _ & _ & _ & _ & _ & Hother).
  destruct (GameState_Infect_frame small_game "Paris") as (Hdeck' & _).
  split; [reflexivity|]. split; [exact Hdeck|]. split; [reflexivity|]. split; [exact Hdeck'|].
  apply Hother; [reflexivity|]. simpl. discriminate.
Defined.

(** ** C6: outbreak eligibility *)

Lemma Contains_true (s : Striation) (cn : CityName) : Contains s cn = true ↔ cn ∈ s.
Proof. unfold Contains. apply bool_decide_eq_true. Qed.





(** ** Reachable game states *)

Lemma reachable_run_all cities gameName ops gs gs' :
  reachable cities gameName gs → run_all ops gs = Some gs' → reachable cities gameName gs'.
Proof.
  revert gs. induction ops as [|op ops IH]; intros gs Hgs; simpl.
  - by intros [= <-].
  - destruct (fst (run op gs)) eqn:E; [| |done];
      apply IH, reachable_run; auto; by rewrite E.
Qed.

(** ** C7: the infection level stays in 0..3 *)

Lemma City_Infect_at_3 (c : City) : NumInfections c = 3 → City_Infect c = (true, c).
Proof. intros H. unfold City_Infect. by rewrite H. Qed.

Lemma City_Infect_below_3 (c : City) :
  is_int (NumInfections c) → NumInfections c < 3 →
  City_Infect c = (false, City_SetInfections (NumInfections c + 1) c).
Proof.
  unfold is_int. intros Hi H. unfold City_Infect, City_SetInfections.
  destruct (Z.eqb_spec (NumInfections c) 3); [lia|].
  rewrite int_wrap_id; [done|]. lia.
Qed.

Lemma City_Infect_level_le_3 (c : City) : level_le_3 c → level_le_3 (snd (City_Infect c)).
Proof.
  unfold level_le_3, is_int. intros [Hi H].
  destruct (Z.eq_dec (NumInfections c) 3) as [E|E].
  - by rewrite City_Infect_at_3.
  - rewrite City_Infect_below_3 by (unfold is_int; lia). simpl. lia.
Qed.

Lemma City_Infect_level_ok (c : City) : level_ok c → level_ok (snd (City_Infect c)).
Proof.
  unfold level_ok. intros H.
  destruct (Z.eq_dec (NumInfections c) 3) as [E|E].
  - by rewrite City_Infect_at_3.
  - rewrite City_Infect_below_3 by (unfold is_int; lia). simpl. lia.
Qed.

Lemma GetCity_update_same (cs : Cities) (cn : CityName) (f : City → City) (c : City) :
  GetCity cs cn = Some c → Name (f c) = Name c →
  GetCity (Cities_update cs cn f) cn = Some (f c).
Proof.
  induction cs as [|x cs IH]; simpl; [done|].
  destruct (name_is cn x) eqn:E.
  - intros [= ->] Hn. simpl. unfold name_is in *. by rewrite Hn, E.
  - intros Hg Hn. simpl. rewrite E. auto.
Qed.

Section CityInvariant.
(** A property of a city that the four writes of the session keep. *)
Variable P : City → Prop.
Hypothesis P_RemoveQuarantine : ∀ c, P c → P (City_RemoveQuarantine c).
Hypothesis P_Quarantine : ∀ c, P c → P (City_Quarantine c).
Hypothesis P_Epidemic : ∀ c, P c → P (City_Epidemic c).
Hypothesis P_Infect : ∀ c, P c → P (snd (City_Infect c)).

Lemma Cities_update_Forall (cs : Cities) (cn : CityName) (f : City → City) :
  (∀ c, P c → P (f c)) → Forall P cs → Forall P (Cities_update cs cn f).
Proof.
  intros Hf. induction 1 as [|c cs Hc Hcs IH]; simpl; [constructor|].
  destruct (name_is cn c); constructor; auto.
Qed.

Lemma run_cities_Forall (op : operation) (gs : GameState) :
  Forall P (GS_Cities gs) → Forall P (GS_Cities (snd (run op gs))).
Proof using P_RemoveQuarantine P_Quarantine P_Epidemic P_Infect.
  intros H.
  destruct op as [cn|cn|cn|cn|cn| |cn|cn| ]; simpl.
  - unfold GameState_Infect.
    destruct (InfectionDeck_Draw cn (GS_InfectionDeck gs)) as [[| |] d]; simpl; auto.
    destruct (GetCity (GS_Cities gs) cn) as [city|]; simpl; auto.
    destruct (Quarantined city); simpl; auto using Cities_update_Forall.
  - unfold GameState_Epidemic.
    destruct (InfectionDeck_PullFromBottom cn (GS_InfectionDeck gs)) as [[| |] d]; simpl; auto.
    destruct (CityDeck_DrawEpidemic (GS_CityDeck gs)) as [[| |] cd]; simpl; auto.
    destruct (GetCity (GS_Cities gs) cn) as [city|]; simpl; auto.
    destruct (Quarantined city); simpl; auto using Cities_update_Forall.
  - unfold GameState_Quarantine.
    destruct (GetCity (GS_Cities gs) cn) as [city|]; simpl; auto.
    destruct (Quarantined city); simpl; auto using Cities_update_Forall.
  - unfold GameState_RemoveQuarantine.
    destruct (GetCity (GS_Cities gs) cn) as [city|]; simpl; auto.
    destruct (Quarantined city); simpl; auto using Cities_update_Forall.
  - unfold on_CityDeck. by destruct (CityDeck_Draw cn (GS_CityDeck gs)).
  - unfold on_CityDeck. by destruct (CityDeck_DrawEpidemic (GS_CityDeck gs)).
  - unfold on_InfectionDeck. by destruct (InfectionDeck_Draw cn (GS_InfectionDeck gs)).
  - unfold on_InfectionDeck. by destruct (InfectionDeck_PullFromBottom cn (GS_InfectionDeck gs)).
  - done.
Qed.

Lemma reachable_cities_Forall cities gameName gs :
  Forall P cities → reachable cities gameName gs → Forall P (GS_Cities gs).
Proof using P_RemoveQuarantine P_Quarantine P_Epidemic P_Infect.
  intros Hcat. induction 1 as [|gs op _ IH _]; [exact Hcat|]. by apply run_cities_Forall.
Qed.
End CityInvariant.

(** C7. In a session started from a catalog whose infection levels are at
    most 3, the infection level of every city is at most 3 in every state the
    session reaches; started from levels in 0..3, it stays in 0..3.
    [City.Infect] on a city at level 3 returns true and leaves the level,
    below 3 it returns false and adds one; through [GameState.Infect] a city
    at level 3 stays at level 3. *)
Theorem infection_level_bounded (cities : Cities) (gameName : string) (gs : GameState) :
  Forall level_le_3 cities →
  reachable cities gameName gs →
  Forall (λ c, NumInfections c <= 3) (GS_Cities gs)
  ∧ (levels_ok cities → levels_ok (GS_Cities gs))
  ∧ (∀ c, NumInfections c = 3 → City_Infect c = (true, c))
  ∧ (∀ c, 0 <= NumInfections c < 3 →
       City_Infect c = (false, City_SetInfections (NumInfections c + 1) c))
  ∧ (∀ cn city, GetCity (GS_Cities gs) cn = Some city → NumInfections city = 3 →
       ∃ city', GetCity (GS_Cities (snd (GameState_Infect gs cn))) cn = Some city'
                ∧ NumInfections city' = 3).
Proof.
  intros Hcat Hreach.
  assert (∀ c, level_ok c → level_ok (City_Epidemic c)) as Hok3.
  { intros c _. unfold level_ok. simpl. lia. }
  assert (∀ c, level_le_3 c → level_le_3 (City_Epidemic c)) as Hle3.
  { intros c _. unfold level_le_3, is_int. simpl. lia. }
  split; [|split; [|split; [exact City_Infect_at_3 | split]]].
  - eapply Forall_impl.
    + apply (reachable_cities_Forall level_le_3) with (cities := cities) (gameName := gameName);
        auto using City_Infect_level_le_3.
    + by intros c [_ H].
  - intros Hcat0.
    apply (reachable_cities_Forall level_ok) with (cities := cities) (gameName := gameName);
      auto using City_Infect_level_ok.
  - intros c H. apply City_Infect_below_3; unfold is_int; lia.
  - intros cn city Hget H3. unfold GameState_Infect.
    destruct (InfectionDeck_Draw cn (GS_InfectionDeck gs)) as [[| |] d]; simpl; eauto.
    rewrite Hget. destruct (Quarantined city); simpl.
    + exists (City_RemoveQuarantine city). split; [|done].
      by apply GetCity_update_same.
    + exists city. split; [|done].
      rewrite (GetCity_update_same _ _ _ city Hget); by rewrite City_Infect_at_3.
Qed.

Lemma infection_level_bounded_witness :
  ∃ gs, run_all [OpInfect "Lagos"; OpInfect "Atlanta"; OpInfect "Lagos"] outbreak_game = Some gs
        ∧ levels_ok (GS_Cities gs)
        ∧ map NumInfections (GS_Cities gs) = [1; 3].
Proof.
  eexists. split; [reflexivity|]. split; [|reflexivity].
  assert (levels_ok [atlanta; City_SetInfections 3 lagos]) as Hcat.
  { repeat constructor; simpl; lia. }
  assert (Forall level_le_3 [atlanta; City_SetInfections 3 lagos]) as Hcat3.
  { repeat constructor; simpl; lia. }
  refine (proj1 (proj2 (infection_level_bounded
                          [atlanta; City_SetInfections 3 lagos] "demo" _ Hcat3 _)) Hcat).
  apply (reachable_run_all _ _ [OpInfect "Lagos"; OpInfect "Atlanta"; OpInfect "Lagos"]
                           outbreak_game); [apply reachable_new | reflexivity].
Defined.

(** ** C3: what a failed operation leaves behind *)

Lemma InfectionDeck_Draw_failed (cn : CityName) (d : InfectionDeck) :
  fst (InfectionDeck_Draw cn d) ≠ Done → snd (InfectionDeck_Draw cn d) = d.
Proof.
  unfold InfectionDeck_Draw.
  destruct (existsb _ _); simpl; [done|]. by destruct (Drawn_Contains _ _).
Qed.

Lemma InfectionDeck_PullFromBottom_failed (cn : CityName) (d : InfectionDeck) :
  fst (InfectionDeck_PullFromBottom cn d) ≠ Done → snd (InfectionDeck_PullFromBottom cn d) = d.
Proof. unfold InfectionDeck_PullFromBottom. by destruct (Drawn_Contains _ _). Qed.

Lemma CityDeck_Draw_failed (cn : CityName) (c : CityDeck) :
  fst (CityDeck_Draw cn c) ≠ Done → snd (CityDeck_Draw cn c) = c.
Proof.
  unfold CityDeck_Draw. destruct (existsb _ _); simpl; [done|]. by destruct (find _ _).
Qed.

Lemma CityDeck_DrawEpidemic_failed (c : CityDeck) :
  fst (CityDeck_DrawEpidemic c) ≠ Done → snd (CityDeck_DrawEpidemic c) = c.
Proof. unfold CityDeck_DrawEpidemic. simpl. by destruct (_ >=? _). Qed.

(** C3, as stated, fails: [Infect] draws the card from the infection deck
    before it looks the city up, and a failed lookup leaves the card drawn. *)
Lemma failed_Infect_keeps_draw :
  fst (GameState_Infect orphan_game "Lagos") = Failed (ErrNoCityNamed "Lagos")
  ∧ ID_Drawn (GS_InfectionDeck orphan_game) = []
  ∧ ID_Drawn (GS_InfectionDeck (snd (GameState_Infect orphan_game "Lagos"))) = ["Lagos"]
  ∧ snd (GameState_Infect orphan_game "Lagos") ≠ orphan_game.
Proof.
  split; [reflexivity|]. split; [reflexivity|]. split; [reflexivity|].
  intros H. apply (f_equal (λ g, ID_Drawn (GS_InfectionDeck g))) in H.
  vm_compute in H. discriminate.
Qed.

(** C3 (amended). A failed [Quarantine], [RemoveQuarantine], [CityDeck.Draw]
    or [CityDeck.DrawEpidemic] leaves the state as it was.  A failed [Infect]
    or [Epidemic] leaves the city deck, every city and every other field as
    they were; the infection deck is as the first step ([InfectionDeck.Draw],
    [PullFromBottom]) left it: unchanged when that step is the one that
    failed, changed by it when a later step failed ([Infect]: no city of that
    name; [Epidemic]: no epidemic card left). *)
Theorem failed_operation_frame (gs : GameState) (cn : CityName) (e : error) :
  (fst (GameState_Quarantine gs cn) = Failed e → snd (GameState_Quarantine gs cn) = gs)
  ∧ (fst (GameState_RemoveQuarantine gs cn) = Failed e →
       snd (GameState_RemoveQuarantine gs cn) = gs)
  ∧ (∀ c, fst (CityDeck_Draw cn c) = Failed e → snd (CityDeck_Draw cn c) = c)
  ∧ (∀ c, fst (CityDeck_DrawEpidemic c) = Failed e → snd (CityDeck_DrawEpidemic c) = c)
  ∧ (fst (GameState_Infect gs cn) = Failed e →
       snd (GameState_Infect gs cn)
       = set_InfectionDeck gs (snd (InfectionDeck_Draw cn (GS_InfectionDeck gs)))
       ∧ (fst (InfectionDeck_Draw cn (GS_InfectionDeck gs)) ≠ Done →
          snd (GameState_Infect gs cn) = gs)
       ∧ (fst (InfectionDeck_Draw cn (GS_InfectionDeck gs)) = Done →
          e = ErrNoCityNamed cn ∧ GetCity (GS_Cities gs) cn = None))
  ∧ (fst (GameState_Epidemic gs cn) = Failed e →
       snd (GameState_Epidemic gs cn)
       = set_InfectionDeck gs (snd (InfectionDeck_PullFromBottom cn (GS_InfectionDeck gs)))
       ∧ (fst (InfectionDeck_PullFromBottom cn (GS_InfectionDeck gs)) ≠ Done →
          snd (GameState_Epidemic gs cn) = gs)
       ∧ (fst (InfectionDeck_PullFromBottom cn (GS_InfectionDeck gs)) = Done →
          e = ErrEpidemicsExhausted (EpidemicsDrawn (GS_CityDeck gs)))).
Proof.
  repeat apply conj.
  - unfold GameState_Quarantine. destruct (GetCity _ _) as [city|]; [|done].
    by destruct (Quarantined city).
  - unfold GameState_RemoveQuarantine. destruct (GetCity _ _) as [city|]; [|done].
    by destruct (Quarantined city).
  - intros c H. apply CityDeck_Draw_failed. by rewrite H.
  - intros c H. apply CityDeck_DrawEpidemic_failed. by rewrite H.
  - unfold GameState_Infect.
    pose proof (InfectionDeck_Draw_failed cn (GS_InfectionDeck gs)) as Hd.
    destruct (InfectionDeck_Draw cn (GS_InfectionDeck gs)) as [[| |] d]; simpl in *.
    + destruct (GetCity (GS_Cities gs) cn) as [city|]; simpl.
      * by destruct (Quarantined city).
      * by intros [= <-].
    + intros _. rewrite Hd by done. rewrite set_InfectionDeck_same. done.
    + done.
  - unfold GameState_Epidemic.
    pose proof (InfectionDeck_PullFromBottom_failed cn (GS_InfectionDeck gs)) as Hd.
    destruct (InfectionDeck_PullFromBottom cn (GS_InfectionDeck gs)) as [[| |] d]; simpl in *.
    + pose proof (CityDeck_DrawEpidemic_failed (GS_CityDeck gs)) as Hc.
      unfold CityDeck_DrawEpidemic in *. simpl in *.
      destruct (_ >=? _); simpl in *.
      * intros [= <-]. done.
      * destruct (GetCity (GS_Cities gs) cn) as [city|]; simpl; [|done].
        by destruct (Quarantined city).
    + intros _. rewrite Hd by done. rewrite set_InfectionDeck_same. done.
    + done.
Qed.

Lemma exhausted_game_run : run_all exhausted_script small_game = Some exhausted_game.
Proof. vm_compute. reflexivity. Qed.

Lemma failed_operation_frame_witness :
  snd (GameState_Quarantine exhausted_game "Paris") = exhausted_game
  ∧ snd (GameState_RemoveQuarantine exhausted_game "Lagos") = exhausted_game
  ∧ snd (CityDeck_Draw "Paris" (GS_CityDeck exhausted_game)) = GS_CityDeck exhausted_game
  ∧ snd (CityDeck_DrawEpidemic (GS_CityDeck exhausted_game)) = GS_CityDeck exhausted_game
  ∧ snd (GameState_Infect exhausted_game "Lagos") = exhausted_game
  ∧ snd (GameState_Epidemic exhausted_game "Paris") = exhausted_game
  ∧ snd (GameState_Epidemic exhausted_game "Atlanta")
    = set_InfectionDeck exhausted_game
        (snd (InfectionDeck_PullFromBottom "Atlanta" (GS_InfectionDeck exhausted_game))).
Proof.
  destruct (failed_operation_frame exhausted_game "Paris" (ErrNoCityNamed "Paris"))
    as (Hq & _).
  destruct (failed_operation_frame exhausted_game "Lagos" (ErrNotQuarantined "Lagos"))
    as (_ & Hrq & _).
  destruct (failed_operation_frame exhausted_game "Paris" (ErrNoCityInDeck "Paris"))
    as (_ & _ & Hcd & _).
  destruct (failed_operation_frame exhausted_game "Paris" (ErrEpidemicsExhausted 5))
    as (_ & _ & _ & Hce & _).
  destruct (failed_operation_frame exhausted_game "Lagos" (ErrInfectionDuplicateDraw "Lagos"))
    as (_ & _ & _ & _ & Hi & _).
  destruct (failed_operation_frame exhausted_game "Paris" (ErrInfectionNotFound "Paris"))
    as (_ & _ & _ & _ & _ & He).
  destruct (failed_operation_frame exhausted_game "Atlanta" (ErrEpidemicsExhausted 5))
    as (_ & _ & _ & _ & _ & He').
  split; [apply Hq; reflexivity|].
  split; [apply Hrq; reflexivity|].
  split; [apply Hcd; reflexivity|].
  split; [apply Hce; reflexivity|].
  split; [apply Hi; [reflexivity | vm_compute; discriminate]|].
  split; [apply He; [reflexivity | vm_compute; discriminate]|].
  apply He'. reflexivity.
Defined.

(** ** C1: the restack of a shock *)

Lemma Drawn_Contains_true (l : list CityName) (cn : CityName) : Drawn_Contains l cn = true ↔ cn ∈ l.
Proof. unfold Drawn_Contains. apply bool_decide_eq_true. Qed.

(** Pulling an entry keeps the members of the drawn pile. *)
Lemma pulled_pile_members (l : list CityName) (cn : CityName) :
  cn ∈ l → list_to_set (C := Striation) (cn :: filter (λ x, x ≠ cn) l) = list_to_set l.
Proof.
  intros Hin. apply set_eq. intros x.
  rewrite !elem_of_list_to_set, elem_of_cons, list_elem_of_filter.
  destruct (decide (x = cn)) as [->|Hne]; tauto.
Qed.

(** The path of [Epidemic] that reaches [ShuffleDrawn]: on a city that is not
    quarantined, a successful call leaves the drawn pile empty and the former
    drawn pile, the named city in it, as the new striation at index 0. *)
Lemma Epidemic_restack (gs : GameState) (cn : CityName) (city : City) :
  GetCity (GS_Cities gs) cn = Some city →
  Quarantined city = false →
  fst (GameState_Epidemic gs cn) = Done →
  let d' := GS_InfectionDeck (snd (GameState_Epidemic gs cn)) in
  ID_Drawn d' = []
  ∧ ID_Striations d'
    = list_to_set (ID_Drawn (GS_InfectionDeck gs)) :: ID_Striations (GS_InfectionDeck gs)
  ∧ cn ∈ ID_Drawn (GS_InfectionDeck gs).
Proof.
  intros Hget Hq. unfold GameState_Epidemic, InfectionDeck_PullFromBottom.
  destruct (Drawn_Contains _ _) eqn:Hin; simpl; [|done].
  apply Drawn_Contains_true in Hin.
  unfold CityDeck_DrawEpidemic. simpl.
  destruct (_ >=? _); simpl; [done|].
  rewrite Hget, Hq. simpl. intros _.
  split; [done|]. split; [|done].
  rewrite <- (pulled_pile_members _ cn Hin). reflexivity.
Qed.

(** C1 (the defect). On a quarantined city a successful [Epidemic] returns
    right after [RemoveQuarantine]: [ShuffleDrawn] is not called.  The
    infection deck is as [PullFromBottom] left it — no striation is added,
    the striations are those of before, and the drawn pile is not empty. *)
Theorem Epidemic_quarantined_skips_shuffle (gs : GameState) (cn : CityName) (city : City) :
  GetCity (GS_Cities gs) cn = Some city →
  Quarantined city = true →
  fst (GameState_Epidemic gs cn) = Done →
  let d' := GS_InfectionDeck (snd (GameState_Epidemic gs cn)) in
  d' = snd (InfectionDeck_PullFromBottom cn (GS_InfectionDeck gs))
  ∧ ID_Striations d' = ID_Striations (GS_InfectionDeck gs)
  ∧ ID_Drawn d' ≠ [].
Proof.
  intros Hget Hq. unfold GameState_Epidemic, InfectionDeck_PullFromBottom.
  destruct (Drawn_Contains _ _) eqn:Hin; simpl; [|done].
  unfold CityDeck_DrawEpidemic. simpl.
  destruct (_ >=? _); simpl; [done|].
  rewrite Hget, Hq. simpl. done.
Qed.

Lemma shock_game_run : run_all shock_script small_game = Some shock_game.
Proof. vm_compute. reflexivity. Qed.

Lemma Epidemic_quarantined_skips_shuffle_witness :
  fst (GameState_Epidemic shock_game "Atlanta") = Done
  ∧ ID_Striations (GS_InfectionDeck (snd (GameState_Epidemic shock_game "Atlanta"))) = [∅]
  ∧ ID_Drawn (GS_InfectionDeck (snd (GameState_Epidemic shock_game "Atlanta")))
    = ["Atlanta"; "Lagos"].
Proof.
  split; [reflexivity|].
  destruct (Epidemic_quarantined_skips_shuffle shock_game "Atlanta"
              (City_Quarantine (City_SetInfections 1 atlanta)))
    as (Hd & Hs & _); [reflexivity..|].
  split; [exact Hs|]. rewrite Hd. reflexivity.
Defined.

(** The same call on Lagos, which is not quarantined, restacks. *)
Example Epidemic_restack_Lagos :
  fst (GameState_Epidemic shock_game "Lagos") = Done
  ∧ ID_Striations (GS_InfectionDeck (snd (GameState_Epidemic shock_game "Lagos")))
    = [{["Atlanta"; "Lagos"]}; ∅]
  ∧ ID_Drawn (GS_InfectionDeck (snd (GameState_Epidemic shock_game "Lagos"))) = [].
Proof. split; [reflexivity|]. split; [|reflexivity]. vm_compute. reflexivity. Qed.

(** ** C2: the probability of a city is in [0, 1] *)

Lemma CityDeck_Draw_All (cn : CityName) (c : CityDeck) : CD_All (snd (CityDeck_Draw cn c)) = CD_All c.
Proof. unfold CityDeck_Draw. destruct (existsb _ _); [done|]. by destruct (find _ _). Qed.

Lemma CityDeck_DrawEpidemic_All (c : CityDeck) : CD_All (snd (CityDeck_DrawEpidemic c)) = CD_All c.
Proof. unfold CityDeck_DrawEpidemic. simpl. by destruct (_ >=? _). Qed.

Lemma NumEpidemics_All (c c' : CityDeck) : CD_All c' = CD_All c → NumEpidemics c' = NumEpidemics c.
Proof. unfold NumEpidemics. by intros ->. Qed.

Lemma InfectionDeck_Draw_disjoint (cn : CityName) (d : InfectionDeck) :
  deck_disjoint d → deck_disjoint (snd (InfectionDeck_Draw cn d)).
Proof.
  intros Hd. unfold InfectionDeck_Draw.
  destruct (existsb _ _); simpl; [|by destruct (Drawn_Contains _ _)].
  intros s' x. simpl. intros (s & -> & Hs)%list_elem_of_fmap [->|Hx]%elem_of_cons.
  - intros [_ Hne]%elem_of_difference. apply Hne. by apply elem_of_singleton.
  - intros [Hin _]%elem_of_difference. by apply (Hd s x).
Qed.

Lemma InfectionDeck_PullFromBottom_disjoint (cn : CityName) (d : InfectionDeck) :
  deck_disjoint d → deck_disjoint (snd (InfectionDeck_PullFromBottom cn d)).
Proof.
  intros Hd. unfold InfectionDeck_PullFromBottom.
  destruct (Drawn_Contains _ _) eqn:Hin; simpl; [|done].
  apply Drawn_Contains_true in Hin.
  intros s x. simpl. intros Hs [->|[_ Hx]%list_elem_of_filter]%elem_of_cons; by apply Hd.
Qed.

Lemma InfectionDeck_ShuffleDrawn_disjoint (d : InfectionDeck) :
  deck_disjoint (InfectionDeck_ShuffleDrawn d).
Proof. intros s x _ Hx. simpl in Hx. by apply not_elem_of_nil in Hx. Qed.

Lemma NewGame_inv (cities : Cities) (gameName : string) : session_inv (NewGame cities gameName).
Proof.
  split; [done|]. split.
  - by apply NumEpidemics_CityCards.
  - intros s x _ Hx. simpl in Hx. by apply not_elem_of_nil in Hx.
Qed.

Ltac inv_done := unfold session_inv; simpl in *; repeat split; auto; congruence.

Lemma run_inv (op : operation) (gs : GameState) : session_inv gs → session_inv (snd (run op gs)).
Proof.
  intros (Hrate & Hepi & Hdis).
  pose proof (InfectionDeck_ShuffleDrawn_disjoint) as HS.
  destruct op as [cn|cn|cn|cn|cn| |cn|cn| ]; simpl.
  - unfold GameState_Infect.
    pose proof (InfectionDeck_Draw_disjoint cn _ Hdis) as HD.
    destruct (InfectionDeck_Draw cn (GS_InfectionDeck gs)) as [[| |] d]; try inv_done.
    destruct (GetCity (GS_Cities (set_InfectionDeck gs d)) cn) as [city|]; [|inv_done].
    destruct (Quarantined city); inv_done.
  - unfold GameState_Epidemic.
    pose proof (InfectionDeck_PullFromBottom_disjoint cn _ Hdis) as HP.
    destruct (InfectionDeck_PullFromBottom cn (GS_InfectionDeck gs)) as [[| |] d]; try inv_done.
    pose proof (CityDeck_DrawEpidemic_All (GS_CityDeck gs)) as HA%NumEpidemics_All.
    simpl.
    destruct (CityDeck_DrawEpidemic (GS_CityDeck gs)) as [[| |] cd]; try inv_done.
    destruct (GetCity _ cn) as [city|]; [|inv_done].
    destruct (Quarantined city); inv_done.
  - unfold GameState_Quarantine.
    destruct (GetCity (GS_Cities gs) cn) as [city|]; [|inv_done].
    destruct (Quarantined city); inv_done.
  - unfold GameState_RemoveQuarantine.
    destruct (GetCity (GS_Cities gs) cn) as [city|]; [|inv_done].
    destruct (Quarantined city); inv_done.
  - unfold on_CityDeck.
    pose proof (CityDeck_Draw_All cn (GS_CityDeck gs)) as HA%NumEpidemics_All.
    destruct (CityDeck_Draw cn (GS_CityDeck gs)) as [err cd]. inv_done.
  - unfold on_CityDeck.
    pose proof (CityDeck_DrawEpidemic_All (GS_CityDeck gs)) as HA%NumEpidemics_All.
    destruct (CityDeck_DrawEpidemic (GS_CityDeck gs)) as [err cd]. inv_done.
  - unfold on_InfectionDeck.
    pose proof (InfectionDeck_Draw_disjoint cn _ Hdis) as HD.
    destruct (InfectionDeck_Draw cn (GS_InfectionDeck gs)) as [err d]. inv_done.
  - unfold on_InfectionDeck.
    pose proof (InfectionDeck_PullFromBottom_disjoint cn _ Hdis) as HP.
    destruct (InfectionDeck_PullFromBottom cn (GS_InfectionDeck gs)) as [err d]. inv_done.
  - inv_done.
Qed.

Lemma reachable_inv cities gameName gs : reachable cities gameName gs → session_inv gs.
Proof. induction 1; auto using NewGame_inv, run_inv. Qed.

(** The bottom striation, when it has a member, is one of the striations. *)
Lemma first_nonempty_elem (l : list Striation) (x : CityName) :
  x ∈ first_nonempty l → first_nonempty l ∈ l.
Proof.
  induction l as [|s l IH]; simpl; [set_solver|].
  case_bool_decide; intros Hx; [right; auto | left].
Qed.

Lemma Size_pos (s : Striation) (x : CityName) : x ∈ s → 1 <= Size s.
Proof.
  intros Hx. unfold Size.
  assert (size s ≠ 0%nat); [|lia].
  apply size_non_empty_iff. set_solver.
Qed.

(** The divisors of the float divisions in [ProbabilityOfCity] and
    [ProbabilityOfDrawing]. *)
Lemma ProbabilityOfCity_divisors (d : InfectionDeck) (cn : CityName) :
  (Contains (BottomStriation d) cn = true → 1 <= Size (BottomStriation d))
  ∧ (1 + inject_Z (len (ID_Drawn d)))%Q = inject_Z (1 + len (ID_Drawn d))
  ∧ 1 <= 1 + len (ID_Drawn d).
Proof.
  split.
  - intros H%Contains_true. by apply (Size_pos _ cn).
  - split; [by rewrite inject_Z_plus|]. pose proof (len_nonneg (ID_Drawn d)). lia.
Qed.

Lemma Qdiv_unit_bounds (a b : Z) :
  0 <= a <= b → 0 < b → (0 <= inject_Z a / inject_Z b)%Q ∧ (inject_Z a / inject_Z b <= 1)%Q.
Proof.
  intros Ha Hb. destruct b as [|p|p]; try lia.
  unfold Qdiv, Qinv, Qmult, Qle, inject_Z. simpl. lia.
Qed.

(** In a state that keeps [session_inv], both branches of
    [ProbabilityOfCity] weigh the same draw probability. *)
Lemma ProbabilityOfCity_inv_bounds (gs : GameState) (cn : CityName) :
  session_inv gs →
  ∃ p, ProbabilityOfCity gs cn = Some p ∧ (0 <= p)%Q ∧ (p <= 1)%Q.
Proof.
  intros (Hrate & Hepi & Hdis). unfold ProbabilityOfCity.
  destruct (GetCity (GS_Cities gs) cn) as [city|]; [|by exists 0%Q].
  destruct (Quarantined city); [by exists 0%Q|].
  destruct (probabilityOfEpidemic (GS_CityDeck gs)) as [pEpi|] eqn:HpE.
  2:{ apply probabilityOfEpidemic_None in HpE. rewrite Hepi in HpE. done. }
  eexists. split; [reflexivity|].
  unfold ProbabilityOfDrawing. rewrite Hrate.
  set (d := GS_InfectionDeck gs) in *.
  destruct (ProbabilityOfCity_divisors d cn) as (Hsize & Hsum & Hlen).
  destruct (Contains (BottomStriation d) cn) eqn:Hb.
  - assert (Drawn_Contains (ID_Drawn d) cn = false) as ->.
    { apply not_true_is_false. intros Hin%Drawn_Contains_true.
      apply Contains_true in Hb.
      apply (Hdis (BottomStriation d) cn); [|done..].
      by apply (first_nonempty_elem _ cn). }
    specialize (Hsize eq_refl).
    destruct (Qdiv_unit_bounds 1 (Size (BottomStriation d))) as [H0 H1]; [lia..|].
    change (inject_Z 1) with 1%Q in *.
    set (q := (1 / inject_Z (Size (BottomStriation d)))%Q) in *.
    assert (pEpi * q + (1 - pEpi) * q == q)%Q as -> by ring. done.
  - destruct (Drawn_Contains (ID_Drawn d) cn) eqn:Hin.
    + apply Drawn_Contains_true in Hin.
      assert (1 <= len (ID_Drawn d)).
      { unfold len. destruct (ID_Drawn d); [by apply not_elem_of_nil in Hin | simpl; lia]. }
      rewrite Hsum.
      destruct (Qdiv_unit_bounds 2 (1 + len (ID_Drawn d))) as [H0 H1]; [lia..|].
      set (q := (inject_Z 2 / inject_Z (1 + len (ID_Drawn d)))%Q) in *.
      assert (pEpi * q + (1 - pEpi) * q == q)%Q as -> by ring. done.
    + assert (pEpi * 0 + (1 - pEpi) * 0 == 0)%Q as -> by ring. done.
Qed.

(** C2. In every state a session started by [NewGame] reaches, and for
    every city name, [ProbabilityOfCity] returns, and its value is in the
    closed interval from 0 to 1. *)
Theorem ProbabilityOfCity_bounds (cities : Cities) (gameName : string) (gs : GameState)
    (cn : CityName) :
  reachable cities gameName gs →
  ∃ p, ProbabilityOfCity gs cn = Some p ∧ (0 <= p)%Q ∧ (p <= 1)%Q.
Proof. intros H%reachable_inv. by apply ProbabilityOfCity_inv_bounds. Qed.

Lemma ProbabilityOfCity_bounds_witness :
  probabilityOfEpidemic (GS_CityDeck exhausted_game) = Some 2%Q
  ∧ ∃ p, ProbabilityOfCity exhausted_game "Lagos" = Some p ∧ (p == 2 # 3)%Q
         ∧ (0 <= p)%Q ∧ (p <= 1)%Q.
Proof.
  split; [reflexivity|].
  destruct (ProbabilityOfCity_bounds [atlanta; lagos] "demo" exhausted_game "Lagos")
    as (p & Hp & H0 & H1).
  - apply (reachable_run_all _ _ exhausted_script small_game);
      [apply reachable_new | vm_compute; reflexivity].
  - exists p. split; [exact Hp|]. split; [|by split].
    vm_compute in Hp. injection Hp as <-. reflexivity.
Defined.

(** * Further properties of the package *)

(** ** The city deck *)

Lemma EpidemicsDrawn_app (drawn extra all : list CityCard) :
  EpidemicsDrawn (mkCityDeck (drawn ++ extra) all)
  = EpidemicsDrawn (mkCityDeck drawn all)
    + len (filter (λ card, IsEpidemic card = true) extra).
Proof. unfold EpidemicsDrawn, len. simpl. rewrite filter_app, length_app. lia. Qed.

Lemma find_card_named (cn : CityName) (l : list CityCard) (card : CityCard) :
  find (card_named cn) l = Some card → card ∈ l ∧ Name (Card_City card) = cn.
Proof.
  induction l as [|x l IH]; simpl; [done|].
  unfold card_named at 1. case_bool_decide as Hx.
  - intros [= <-]. split; [left | done].
  - intros [Hin Hn]%IH. split; [by right | done].
Qed.

Lemma existsb_card_named (cn : CityName) (l : list CityCard) :
  existsb (card_named cn) l = true ↔ ∃ card, card ∈ l ∧ Name (Card_City card) = cn.
Proof.
  rewrite existsb_exists. unfold card_named.
  split; intros (card & Hin & Hn); exists card.
  - apply list_elem_of_In in Hin. by apply bool_decide_eq_true in Hn.
  - apply list_elem_of_In in Hin. by rewrite bool_decide_eq_true.
Qed.

(** What a successful [CityDeck.Draw] did. *)
Lemma CityDeck_Draw_Done (cn : CityName) (c : CityDeck) :
  fst (CityDeck_Draw cn c) = Done →
  ∃ card, card ∈ CD_All c ∧ Name (Card_City card) = cn
          ∧ (∀ card', card' ∈ CD_Drawn c → Name (Card_City card') ≠ cn)
          ∧ snd (CityDeck_Draw cn c) = mkCityDeck (CD_Drawn c ++ [card]) (CD_All c).
Proof.
  unfold CityDeck_Draw.
  destruct (existsb (card_named cn) (CD_Drawn c)) eqn:Hex; [done|].
  destruct (find (card_named cn) (CD_All c)) as [card|] eqn:Hf; [|done].
  intros _. apply find_card_named in Hf as [Hin Hn].
  exists card. repeat split; auto.
  intros card' Hin' Hn'. apply not_true_iff_false in Hex. apply Hex.
  apply existsb_card_named. by exists card'.
Qed.

(** X1. A card can be drawn once: after a successful [Draw(cn)] the drawn list
    is one card longer, the full set is as it was, and a second [Draw(cn)]
    fails with the already-drawn error and changes nothing. *)
Theorem CityDeck_Draw_once (cn : CityName) (c : CityDeck) :
  fst (CityDeck_Draw cn c) = Done →
  let c' := snd (CityDeck_Draw cn c) in
  CityDeck_Draw cn c' = (Failed (ErrAlreadyDrawn cn), c')
  ∧ len (CD_Drawn c') = len (CD_Drawn c) + 1
  ∧ CD_All c' = CD_All c
  ∧ ∃ card, last (CD_Drawn c') = Some card ∧ Name (Card_City card) = cn.
Proof.
  intros (card & Hin & Hn & Hfresh & ->)%CityDeck_Draw_Done. simpl.
  split; [|split; [|split]].
  - unfold CityDeck_Draw. simpl.
    assert (existsb (card_named cn) (CD_Drawn c ++ [card]) = true) as ->; [|done].
    apply existsb_card_named. exists card. split; [|done].
    apply elem_of_app. right. by apply list_elem_of_singleton.
  - unfold len. rewrite length_app. simpl. lia.
  - done.
  - exists card. by rewrite last_snoc.
Qed.

Lemma CityDeck_Draw_once_witness :
  let c' := snd (CityDeck_Draw "Lagos" (GS_CityDeck small_game)) in
  CityDeck_Draw "Lagos" c' = (Failed (ErrAlreadyDrawn "Lagos"), c')
  ∧ len (CD_Drawn c') = 1.
Proof.
  destruct (CityDeck_Draw_once "Lagos" (GS_CityDeck small_game)) as (H2 & Hlen & _);
    [reflexivity|].
  split; [exact H2 | exact Hlen].
Defined.

Lemma CityDeck_DrawEpidemic_Done (c : CityDeck) :
  (fst (CityDeck_DrawEpidemic c) = Done ↔ EpidemicsDrawn c < NumEpidemics c)
  ∧ (fst (CityDeck_DrawEpidemic c) = Done →
     snd (CityDeck_DrawEpidemic c)
     = mkCityDeck (CD_Drawn c ++ [mkCityCard City_zero true]) (CD_All c))
  ∧ (fst (CityDeck_DrawEpidemic c) ≠ Done →
     CityDeck_DrawEpidemic c = (Failed (ErrEpidemicsExhausted (EpidemicsDrawn c)), c)).
Proof.
  unfold CityDeck_DrawEpidemic. simpl.
  destruct (Z.geb_spec (EpidemicsDrawn c) (NumEpidemics c)); simpl.
  - split; [|done]. split; [done | lia].
  - split; [|done]. split; [lia | done].
Qed.

Lemma CityDeck_DrawEpidemic_counts (c : CityDeck) :
  fst (CityDeck_DrawEpidemic c) = Done →
  EpidemicsDrawn (snd (CityDeck_DrawEpidemic c)) = EpidemicsDrawn c + 1
  ∧ NumEpidemics (snd (CityDeck_DrawEpidemic c)) = NumEpidemics c.
Proof.
  intros H. destruct (CityDeck_DrawEpidemic_Done c) as (_ & Hd & _).
  rewrite (Hd H). split; [|done].
  destruct c as [drawn all]. simpl. by rewrite EpidemicsDrawn_app.
Qed.

(** X2. The epidemic cards run out: [k] calls of [DrawEpidemic] in a row all
    succeed exactly when the deck has [k] undrawn epidemic cards left; they
    then add [k] to the epidemics drawn and to the length of the drawn list.
    A call that fails leaves the deck as the calls before it made it. *)
Theorem DrawEpidemic_times_exhausts (k : nat) (c : CityDeck) :
  (fst (DrawEpidemic_times k c) = Done
   ↔ k = 0%nat ∨ EpidemicsDrawn c + Z.of_nat k <= NumEpidemics c)
  ∧ (fst (DrawEpidemic_times k c) = Done →
     EpidemicsDrawn (snd (DrawEpidemic_times k c)) = EpidemicsDrawn c + Z.of_nat k
     ∧ len (CD_Drawn (snd (DrawEpidemic_times k c))) = len (CD_Drawn c) + Z.of_nat k
     ∧ CD_All (snd (DrawEpidemic_times k c)) = CD_All c)
  ∧ (fst (DrawEpidemic_times k c) ≠ Done →
     ∃ n, fst (DrawEpidemic_times k c) = Failed (ErrEpidemicsExhausted n)
          ∧ n = NumEpidemics c `max` EpidemicsDrawn c).
Proof.
  revert c. induction k as [|k IH]; intros c; simpl.
  { split; [|split; [|done]].
    - split; auto.
    - intros _. repeat split; lia. }
  destruct (CityDeck_DrawEpidemic_Done c) as (Hiff & Hdone & Hfail).
  destruct (CityDeck_DrawEpidemic c) as [err c'] eqn:E. simpl in *.
  destruct err.
  - pose proof (CityDeck_DrawEpidemic_counts c) as Hc. rewrite E in Hc.
    destruct Hc as [Hd Hn]; [done|]. simpl in *.
    specialize (Hdone eq_refl). subst c'.
    destruct (IH (mkCityDeck (CD_Drawn c ++ [mkCityCard City_zero true]) (CD_All c)))
      as (IH1 & IH2 & IH3).
    apply proj1 in Hiff. specialize (Hiff eq_refl).
    split; [|split].
    + rewrite IH1, Hd, Hn. lia.
    + intros H. destruct (IH2 H) as (-> & -> & ->). simpl.
      rewrite Hd. unfold len. rewrite length_app. simpl. repeat split; lia.
    + intros H. destruct (IH3 H) as (n & Hn' & ->).
      exists (NumEpidemics c `max` EpidemicsDrawn c).
      split; [|done]. rewrite Hn', Hd, Hn. f_equal. f_equal. lia.
  - specialize (Hfail ltac:(done)). injection Hfail as -> ->.
    assert (¬ EpidemicsDrawn c < NumEpidemics c) as Hge by (intros H%Hiff; done).
    split; [|split; [done|]].
    + split; [done|]. intros [?|?]; lia.
    + intros _. eexists. split; [reflexivity|]. lia.
  - exfalso. specialize (Hfail ltac:(done)). done.
Qed.

Lemma DrawEpidemic_times_exhausts_witness :
  fst (DrawEpidemic_times 5 (GS_CityDeck small_game)) = Done
  ∧ fst (DrawEpidemic_times 6 (GS_CityDeck small_game)) = Failed (ErrEpidemicsExhausted 5).
Proof.
  destruct (DrawEpidemic_times_exhausts 5 (GS_CityDeck small_game)) as (H5 & _).
  destruct (DrawEpidemic_times_exhausts 6 (GS_CityDeck small_game)) as (H6 & _ & Hfail).
  split.
  - apply H5. right. vm_compute. discriminate.
  - destruct Hfail as (n & -> & ->); [|reflexivity].
    intros [H|H]%H6; [discriminate | vm_compute in H; by apply H].
Defined.

(** X4. [probabilityOfEpidemic] is not a probability: its value is 0 or 2 / k
    for a number k of cards left in the phase, so it lies between 0 and 2,
    and it is 2 when one card of the phase is left. *)
Theorem probabilityOfEpidemic_range (c : CityDeck) (p : Q) :
  probabilityOfEpidemic c = Some p →
  (0 <= p)%Q ∧ (p <= 2)%Q
  ∧ (p = 0%Q
     ∨ ∃ cpe k, cardsPerEpidemic c = Some cpe
                ∧ k = cpe - Z.rem (len (CD_Drawn c)) cpe
                ∧ 1 <= k <= cpe
                ∧ p = (2 / inject_Z k)%Q
                ∧ (k = 1 → p = 2%Q)).
Proof.
  unfold probabilityOfEpidemic.
  destruct (cardsPerEpidemic c) as [cpe|] eqn:E; [|done].
  pose proof (probabilityOfEpidemic_divisor c cpe E) as Hk.
  destruct (Z.eqb_spec cpe 0); [done|].
  destruct (_ =? _); intros [= <-].
  - set (k := cpe - Z.rem (len (CD_Drawn c)) cpe) in *.
    assert ((0 <= 2 / inject_Z k)%Q ∧ (2 / inject_Z k <= 2)%Q) as [H0 H2].
    { destruct k as [|q|q]; try lia.
      unfold Qdiv, Qinv, Qmult, Qle, inject_Z. simpl. lia. }
    split; [done|]. split; [done|]. right. exists cpe, k.
    repeat split; auto; try lia. by intros ->.
  - split; [done|]. split; [done|]. by left.
Qed.

Lemma probabilityOfEpidemic_range_witness :
  probabilityOfEpidemic (GS_CityDeck small_game) = Some 2%Q
  ∧ (0 <= 2)%Q ∧ (2 <= 2)%Q.
Proof.
  split; [reflexivity|].
  destruct (probabilityOfEpidemic_range (GS_CityDeck small_game) 2%Q) as (H0 & H2 & _);
    [reflexivity|].
  by split.
Defined.

(** ** Panics of the probability *)

(** X5. [ProbabilityOfCity] panics exactly for a city that exists and is not
    quarantined, on a city deck without epidemic cards; [CanOutbreak] panics
    exactly when, moreover, the infection level of the city is not 0. *)
Theorem ProbabilityOfCity_panics_iff (gs : GameState) (cn : CityName) :
  (ProbabilityOfCity gs cn = None
   ↔ ∃ city, GetCity (GS_Cities gs) cn = Some city
             ∧ Quarantined city = false
             ∧ NumEpidemics (GS_CityDeck gs) = 0)
  ∧ (CanOutbreak gs cn = None
     ↔ ∃ city, GetCity (GS_Cities gs) cn = Some city
               ∧ NumInfections city ≠ 0
               ∧ Quarantined city = false
               ∧ NumEpidemics (GS_CityDeck gs) = 0).
Proof.
  assert (ProbabilityOfCity gs cn = None
          ↔ ∃ city, GetCity (GS_Cities gs) cn = Some city
                    ∧ Quarantined city = false
                    ∧ NumEpidemics (GS_CityDeck gs) = 0) as Hp.
  { unfold ProbabilityOfCity.
    destruct (GetCity (GS_Cities gs) cn) as [city|].
    2:{ split; [done|]. by intros (? & ? & _). }
    destruct (Quarantined city) eqn:Hq.
    { split; [done|]. intros (? & [= <-] & ? & _). congruence. }
    destruct (probabilityOfEpidemic (GS_CityDeck gs)) as [pEpi|] eqn:E.
    - split; [done|]. intros (? & _ & _ & H0).
      apply probabilityOfEpidemic_None in H0. congruence.
    - apply probabilityOfEpidemic_None in E. split; [|done].
      intros _. by exists city. }
  split; [exact Hp|].
  unfold CanOutbreak.
  destruct (GetCity (GS_Cities gs) cn) as [city|] eqn:Hget.
  2:{ split; [done|]. by intros (? & ? & _). }
  destruct (Z.eqb_spec (NumInfections city) 0) as [H0|H0].
  { split; [done|]. intros (? & [= <-] & ? & _). done. }
  destruct (ProbabilityOfCity gs cn) as [prob|] eqn:E.
  - split; [by destruct (is_zero prob)|].
    intros (city' & [= <-] & _ & Hq & Hn).
    assert (Some prob = None); [|done].
    apply Hp. by exists city.
  - split; [|done]. intros _.
    destruct (proj1 Hp eq_refl) as (city' & [= <-] & Hq & Hn).
    by exists city.
Qed.

Lemma ProbabilityOfCity_panics_iff_witness :
  ProbabilityOfCity quarantined_game "Lagos" = None
  ∧ CanOutbreak quarantined_game "Lagos" = Some false
  ∧ ProbabilityOfCity quarantined_game "Atlanta" = Some 0%Q.
Proof.
  destruct (ProbabilityOfCity_panics_iff quarantined_game "Lagos") as (Hp & _).
  split; [|split; reflexivity].
  apply Hp. exists lagos. by repeat split.
Defined.

(** ** The drawn list over a session *)

Lemma drawn_city_names_app (drawn extra all : list CityCard) :
  drawn_city_names (mkCityDeck (drawn ++ extra) all)
  = drawn_city_names (mkCityDeck drawn all) ++ drawn_city_names (mkCityDeck extra all).
Proof. unfold drawn_city_names. simpl. by rewrite filter_app, map_app. Qed.

Lemma EpidemicsDrawn_zero (c : CityDeck) :
  (∀ card, card ∈ CD_Drawn c → IsEpidemic card = false) → EpidemicsDrawn c = 0.
Proof.
  intros H. unfold EpidemicsDrawn.
  induction (CD_Drawn c) as [|x l IH]; [done|].
  rewrite filter_cons_False.
  - apply IH. intros card Hin. apply H. by right.
  - rewrite (H x); [done | left].
Qed.

Lemma NumEpidemics_pos_elem (c : CityDeck) :
  1 <= NumEpidemics c → ∃ card, card ∈ CD_All c ∧ IsEpidemic card = true.
Proof.
  unfold NumEpidemics, len.
  destruct (filter _ (CD_All c)) as [|card l] eqn:E; simpl; [lia|].
  intros _. exists card.
  assert (card ∈ filter (λ card, IsEpidemic card = true) (CD_All c)) as Hin by (rewrite E; left).
  by apply list_elem_of_filter in Hin as [? ?].
Qed.

Lemma elem_of_snoc {A} (l : list A) (x y : A) : x ∈ l ++ [y] ↔ x ∈ l ∨ x = y.
Proof. by rewrite elem_of_app, list_elem_of_singleton. Qed.

Lemma NewGame_deck_inv (cities : Cities) (gameName : string) :
  deck_inv (GS_CityDeck (NewGame cities gameName)).
Proof.
  unfold deck_inv. simpl.
  rewrite NumEpidemics_CityCards by done.
  repeat split; try done.
  - intros card [Hin|Hin] Hepi.
    + unfold CityCards in Hin. apply elem_of_app in Hin as [Hin|Hin].
      * apply list_elem_of_fmap in Hin as (city & -> & _). done.
      * by apply list_elem_of_In, repeat_spec in Hin.
    + by apply not_elem_of_nil in Hin.
  - constructor.
  - intros card Hin. by apply not_elem_of_nil in Hin.
Qed.

Lemma CityDeck_Draw_deck_inv (cn : CityName) (c : CityDeck) :
  deck_inv c → deck_inv (snd (CityDeck_Draw cn c)).
Proof.
  intros Hinv.
  destruct (fst (CityDeck_Draw cn c)) eqn:E.
  2,3: rewrite CityDeck_Draw_failed; [done | by rewrite E].
  destruct Hinv as (Hzero & Hle & Hnd & Hsub & Hpos).
  apply CityDeck_Draw_Done in E as (card & Hin & Hn & Hfresh & ->).
  destruct c as [drawn all]. simpl in *.
  unfold deck_inv. simpl. split; [|split; [|split; [|split]]].
  - intros card' [H|[H| ->]%elem_of_snoc] Hepi; auto.
  - rewrite EpidemicsDrawn_app.
    change (NumEpidemics (mkCityDeck (drawn ++ [card]) all))
      with (NumEpidemics (mkCityDeck drawn all)).
    destruct (IsEpidemic card) eqn:Hepi.
    + rewrite filter_cons_True by done. simpl.
      rewrite EpidemicsDrawn_zero; [unfold len; simpl; lia|].
      simpl. intros card' Hin'. destruct (IsEpidemic card') eqn:Hepi'; [|done].
      exfalso. apply (Hfresh card' Hin').
      rewrite (Hzero card') by auto. rewrite (Hzero card) in Hn by auto. done.
    + rewrite filter_cons_False by (rewrite Hepi; done). unfold len. simpl. lia.
  - rewrite drawn_city_names_app. unfold drawn_city_names at 2. simpl.
    destruct (IsEpidemic card) eqn:Hepi.
    + rewrite filter_cons_False by (unfold is_city_card; rewrite Hepi; done).
      simpl. by rewrite app_nil_r.
    + rewrite filter_cons_True by exact Hepi. simpl.
      apply NoDup_app. split; [done|]. split; [|apply NoDup_singleton].
      intros x Hx Hs%list_elem_of_singleton. subst x.
      unfold drawn_city_names in Hx. simpl in Hx.
      apply list_elem_of_fmap in Hx as (card' & Hn' & [_ Hin']%list_elem_of_filter).
      apply (Hfresh card' Hin'). congruence.
  - intros card' [H| ->]%elem_of_snoc; auto.
  - done.
Qed.

Lemma CityDeck_DrawEpidemic_deck_inv (c : CityDeck) :
  deck_inv c → deck_inv (snd (CityDeck_DrawEpidemic c)).
Proof.
  intros Hinv.
  destruct (CityDeck_DrawEpidemic_Done c) as (Hiff & Hdone & Hfail).
  destruct (fst (CityDeck_DrawEpidemic c)) eqn:E.
  2,3: rewrite CityDeck_DrawEpidemic_failed; [done | by rewrite E].
  pose proof (CityDeck_DrawEpidemic_counts c) as [Hd Hn]; [done|].
  apply proj1 in Hiff. specialize (Hiff eq_refl).
  destruct Hinv as (Hzero & Hle & Hnd & Hsub & Hpos).
  unfold deck_inv. rewrite Hd, Hn. rewrite (Hdone eq_refl) in *.
  destruct c as [drawn all]. simpl in *.
  split; [|split; [|split; [|split]]].
  - intros card' [H|[H| ->]%elem_of_snoc] Hepi; auto.
  - lia.
  - rewrite drawn_city_names_app.
    change (drawn_city_names (mkCityDeck [mkCityCard City_zero true] all)) with (@nil CityName).
    by rewrite app_nil_r.
  - intros card' [H| ->]%elem_of_snoc; auto.
    destruct (NumEpidemics_pos_elem (mkCityDeck drawn all) Hpos) as (e & Hin & Hepi).
    simpl in Hin. by rewrite <- (Hzero e) by auto.
  - done.
Qed.

(** The city deck an operation leaves is the one before it, or that deck
    after one [Draw] or one [DrawEpidemic]. *)
Lemma run_CityDeck (op : operation) (gs : GameState) :
  let c := GS_CityDeck gs in
  let c' := GS_CityDeck (snd (run op gs)) in
  c' = c ∨ (∃ cn, c' = snd (CityDeck_Draw cn c)) ∨ c' = snd (CityDeck_DrawEpidemic c).
Proof.
  destruct op as [cn|cn|cn|cn|cn| |cn|cn| ]; simpl.
  - left. unfold GameState_Infect.
    destruct (InfectionDeck_Draw cn (GS_InfectionDeck gs)) as [[| |] d]; simpl; auto.
    destruct (GetCity (GS_Cities gs) cn) as [city|]; simpl; auto.
    by destruct (Quarantined city).
  - unfold GameState_Epidemic.
    destruct (InfectionDeck_PullFromBottom cn (GS_InfectionDeck gs)) as [[| |] d]; simpl; auto.
    destruct (CityDeck_DrawEpidemic (GS_CityDeck gs)) as [[| |] cd]; simpl; auto.
    destruct (GetCity (GS_Cities gs) cn) as [city|]; simpl; auto.
    destruct (Quarantined city); simpl; auto.
  - left. unfold GameState_Quarantine.
    destruct (GetCity (GS_Cities gs) cn) as [city|]; simpl; auto.
    by destruct (Quarantined city).
  - left. unfold GameState_RemoveQuarantine.
    destruct (GetCity (GS_Cities gs) cn) as [city|]; simpl; auto.
    by destruct (Quarantined city).
  - right. left. exists cn. unfold on_CityDeck.
    by destruct (CityDeck_Draw cn (GS_CityDeck gs)).
  - right. right. unfold on_CityDeck.
    by destruct (CityDeck_DrawEpidemic (GS_CityDeck gs)).
  - left. unfold on_InfectionDeck. by destruct (InfectionDeck_Draw cn (GS_InfectionDeck gs)).
  - left. unfold on_InfectionDeck.
    by destruct (InfectionDeck_PullFromBottom cn (GS_InfectionDeck gs)).
  - by left.
Qed.

Lemma length_filter_cards (l : list CityCard) :
  (length (filter (λ card, IsEpidemic card = true) l) + length (filter is_city_card l))%nat
  = length l.
Proof.
  induction l as [|x l IH]; [done|].
  unfold is_city_card in *. destruct (IsEpidemic x) eqn:E.
  - rewrite filter_cons_True, (filter_cons_False (λ card, IsEpidemic card = false)) by congruence.
    simpl. lia.
  - rewrite filter_cons_False, (filter_cons_True (λ card, IsEpidemic card = false)) by congruence.
    simpl. lia.
Qed.

(** Under the invariant no more cards are drawn than the deck has. *)
Lemma deck_inv_len (c : CityDeck) : deck_inv c → len (CD_Drawn c) <= Total c.
Proof.
  intros (Hzero & Hle & Hnd & Hsub & Hpos).
  assert (length (filter is_city_card (CD_Drawn c)) ≤ length (filter is_city_card (CD_All c)))%nat.
  { apply submseteq_length, NoDup_submseteq.
    - unfold drawn_city_names in Hnd. by apply NoDup_fmap_1 in Hnd.
    - intros card [Hc Hin]%list_elem_of_filter. apply list_elem_of_filter. auto. }
  pose proof (length_filter_cards (CD_Drawn c)).
  pose proof (length_filter_cards (CD_All c)).
  unfold EpidemicsDrawn, NumEpidemics, Total, len in *. lia.
Qed.

Lemma run_deck_inv (op : operation) (gs : GameState) :
  deck_inv (GS_CityDeck gs) → deck_inv (GS_CityDeck (snd (run op gs))).
Proof.
  intros H. destruct (run_CityDeck op gs) as [-> | [(cn & ->) | ->]];
    auto using CityDeck_Draw_deck_inv, CityDeck_DrawEpidemic_deck_inv.
Qed.

Lemma run_CD_All (op : operation) (gs : GameState) :
  CD_All (GS_CityDeck (snd (run op gs))) = CD_All (GS_CityDeck gs).
Proof.
  destruct (run_CityDeck op gs) as [-> | [(cn & ->) | ->]];
    auto using CityDeck_Draw_All, CityDeck_DrawEpidemic_All.
Qed.

(** X3. Over a whole session the drawn list of the city deck stays within the
    deck [NewGame] built: the full set never changes, at most
    [EpidemicsPerGame] epidemics are drawn, no two drawn city cards carry the
    same name, every drawn card is a card of the full set, and the drawn
    list is never longer than the full set. *)
Theorem drawn_list_invariant (cities : Cities) (gameName : string) (gs : GameState) :
  reachable cities gameName gs →
  CD_All (GS_CityDeck gs) = CityCards cities EpidemicsPerGame
  ∧ EpidemicsDrawn (GS_CityDeck gs) <= EpidemicsPerGame
  ∧ NoDup (drawn_city_names (GS_CityDeck gs))
  ∧ (∀ card, card ∈ CD_Drawn (GS_CityDeck gs) → card ∈ CD_All (GS_CityDeck gs))
  ∧ len (CD_Drawn (GS_CityDeck gs)) <= Total (GS_CityDeck gs).
Proof.
  intros Hreach.
  assert (CD_All (GS_CityDeck gs) = CityCards cities EpidemicsPerGame) as Hall.
  { induction Hreach as [|gs op _ IH _]; [done|]. by rewrite run_CD_All. }
  assert (deck_inv (GS_CityDeck gs)) as Hinv.
  { induction Hreach as [|gs op Hr IH _]; [apply NewGame_deck_inv|].
    apply run_deck_inv, IH.
    clear -Hr. induction Hr as [|gs op _ IH _]; [done|]. by rewrite run_CD_All. }
  pose proof (deck_inv_len _ Hinv) as Hlen.
  destruct Hinv as (_ & Hle & Hnd & Hsub & _).
  split; [exact Hall|]. split; [|by repeat split].
  assert (NumEpidemics (GS_CityDeck gs) = EpidemicsPerGame) as <-; [|done].
  unfold NumEpidemics. rewrite Hall.
  apply (NumEpidemics_CityCards cities EpidemicsPerGame []). done.
Qed.

Lemma drawn_list_invariant_witness :
  EpidemicsDrawn (GS_CityDeck exhausted_game) = 5
  ∧ NoDup (drawn_city_names (GS_CityDeck exhausted_game))
  ∧ len (CD_Drawn (GS_CityDeck exhausted_game)) <= Total (GS_CityDeck exhausted_game).
Proof.
  destruct (drawn_list_invariant [atlanta; lagos] "demo" exhausted_game)
    as (_ & _ & Hnd & _ & Hlen).
  - apply (reachable_run_all _ _ exhausted_script small_game);
      [apply reachable_new | vm_compute; reflexivity].
  - split; [reflexivity|]. by split.
Defined.

(** ** Quarantine *)

Lemma GetCity_Some (cs : Cities) (cn : CityName) (c : City) :
  GetCity cs cn = Some c → c ∈ cs ∧ Name c = cn.
Proof.
  induction cs as [|x cs IH]; simpl; [done|].
  unfold name_is. case_bool_decide as Hx.
  - intros [= <-]. split; [left | done].
  - intros [Hin Hn]%IH. split; [by right | done].
Qed.

Lemma GetCity_None (cs : Cities) (cn : CityName) :
  GetCity cs cn = None ↔ ∀ c, c ∈ cs → Name c ≠ cn.
Proof.
  induction cs as [|x cs IH]; simpl.
  - split; [|done]. intros _ c Hin. by apply not_elem_of_nil in Hin.
  - unfold name_is. case_bool_decide as Hx.
    + split; [done|]. intros H. exfalso. apply (H x); [left | done].
    + rewrite IH. split.
      * intros H c [->|Hin]%elem_of_cons; auto.
      * intros H c Hin. apply H. by right.
Qed.

Lemma GetCity_update_other (cs : Cities) (cn cn' : CityName) (f : City → City) :
  cn' ≠ cn → (∀ c, Name (f c) = Name c) →
  GetCity (Cities_update cs cn f) cn' = GetCity cs cn'.
Proof.
  intros Hne Hf. induction cs as [|x cs IH]; simpl; [done|].
  unfold name_is at 1. case_bool_decide as Hx; simpl.
  - unfold name_is. rewrite Hf. by repeat case_bool_decide; try congruence.
  - by rewrite IH.
Qed.

(** Two writes to the same city that undo each other. *)
Lemma Cities_update_undo (cs : Cities) (cn : CityName) (f g : City → City) (c : City) :
  GetCity cs cn = Some c → Name (f c) = Name c → g (f c) = c →
  Cities_update (Cities_update cs cn f) cn g = cs.
Proof.
  induction cs as [|x cs IH]; simpl; [done|].
  destruct (name_is cn x) eqn:E.
  - intros [= ->] Hn Hg. simpl. unfold name_is in *. rewrite Hn, E. by rewrite Hg.
  - intros Hget Hn Hg. simpl. rewrite E. by rewrite IH.
Qed.

Lemma set_Cities_same (gs : GameState) (cs : Cities) :
  set_Cities (set_Cities gs cs) (GS_Cities gs) = gs.
Proof. by destruct gs. Qed.

(** What a successful [Quarantine] or [RemoveQuarantine] found and did. *)
Lemma GameState_Quarantine_Done (gs : GameState) (cn : CityName) :
  fst (GameState_Quarantine gs cn) = Done →
  ∃ city, GetCity (GS_Cities gs) cn = Some city ∧ Quarantined city = false
          ∧ snd (GameState_Quarantine gs cn)
            = set_Cities gs (Cities_update (GS_Cities gs) cn City_Quarantine).
Proof.
  unfold GameState_Quarantine.
  destruct (GetCity (GS_Cities gs) cn) as [city|]; [|done].
  destruct (Quarantined city) eqn:Hq; [done|]. intros _. by exists city.
Qed.

Lemma GameState_RemoveQuarantine_Done (gs : GameState) (cn : CityName) :
  fst (GameState_RemoveQuarantine gs cn) = Done →
  ∃ city, GetCity (GS_Cities gs) cn = Some city ∧ Quarantined city = true
          ∧ snd (GameState_RemoveQuarantine gs cn)
            = set_Cities gs (Cities_update (GS_Cities gs) cn City_RemoveQuarantine).
Proof.
  unfold GameState_RemoveQuarantine.
  destruct (GetCity (GS_Cities gs) cn) as [city|]; [|done].
  destruct (Quarantined city) eqn:Hq; [|done]. intros _. by exists city.
Qed.

(** X6. [Quarantine] and [RemoveQuarantine] undo each other: after a successful
    call of the one, the other succeeds and gives back the state of before;
    a second call of the same one fails and changes nothing. *)
Theorem Quarantine_round_trip (gs : GameState) (cn : CityName) :
  (fst (GameState_Quarantine gs cn) = Done →
     GameState_RemoveQuarantine (snd (GameState_Quarantine gs cn)) cn = (Done, gs)
     ∧ GameState_Quarantine (snd (GameState_Quarantine gs cn)) cn
       = (Failed (ErrAlreadyQuarantined cn), snd (GameState_Quarantine gs cn)))
  ∧ (fst (GameState_RemoveQuarantine gs cn) = Done →
     GameState_Quarantine (snd (GameState_RemoveQuarantine gs cn)) cn = (Done, gs)
     ∧ GameState_RemoveQuarantine (snd (GameState_RemoveQuarantine gs cn)) cn
       = (Failed (ErrNotQuarantined cn), snd (GameState_RemoveQuarantine gs cn))).
Proof.
  split.
  - intros (city & Hget & Hq & ->)%GameState_Quarantine_Done.
    assert (GetCity (Cities_update (GS_Cities gs) cn City_Quarantine) cn
            = Some (City_Quarantine city)) as Hget' by by apply GetCity_update_same.
    unfold GameState_RemoveQuarantine, GameState_Quarantine. simpl. rewrite Hget'. simpl.
    split; [|done]. f_equal.
    rewrite (Cities_update_undo _ _ _ _ city); auto.
    + apply set_Cities_same.
    + destruct city. simpl in *. by subst.
  - intros (city & Hget & Hq & ->)%GameState_RemoveQuarantine_Done.
    assert (GetCity (Cities_update (GS_Cities gs) cn City_RemoveQuarantine) cn
            = Some (City_RemoveQuarantine city)) as Hget' by by apply GetCity_update_same.
    unfold GameState_RemoveQuarantine, GameState_Quarantine. simpl. rewrite Hget'. simpl.
    split; [|done]. f_equal.
    rewrite (Cities_update_undo _ _ _ _ city); auto.
    + apply set_Cities_same.
    + destruct city. simpl in *. by subst.
Qed.

Lemma Quarantine_round_trip_witness :
  GameState_RemoveQuarantine (snd (GameState_Quarantine small_game "Lagos")) "Lagos"
  = (Done, small_game)
  ∧ GameState_Quarantine (snd (GameState_RemoveQuarantine shock_game "Atlanta")) "Atlanta"
    = (Done, shock_game).
Proof.
  destruct (Quarantine_round_trip small_game "Lagos") as ((H1 & _) & _); [reflexivity|].
  destruct (Quarantine_round_trip shock_game "Atlanta") as (_ & (H2 & _)); [reflexivity|].
  by split.
Defined.

(** X7. After a successful [Quarantine(cn)] the probability of [cn] is 0 and it
    cannot outbreak, in whatever state the decks are; the probability and the
    outbreak eligibility of every other name are what they were. *)
Theorem Quarantine_effect (gs : GameState) (cn : CityName) :
  fst (GameState_Quarantine gs cn) = Done →
  let gs' := snd (GameState_Quarantine gs cn) in
  ProbabilityOfCity gs' cn = Some 0%Q
  ∧ CanOutbreak gs' cn = Some false
  ∧ (∀ cn', cn' ≠ cn →
       ProbabilityOfCity gs' cn' = ProbabilityOfCity gs cn'
       ∧ CanOutbreak gs' cn' = CanOutbreak gs cn').
Proof.
  intros (city & Hget & Hq & ->)%GameState_Quarantine_Done. simpl.
  assert (GetCity (Cities_update (GS_Cities gs) cn City_Quarantine) cn
          = Some (City_Quarantine city)) as Hget' by by apply GetCity_update_same.
  assert (ProbabilityOfCity
            (set_Cities gs (Cities_update (GS_Cities gs) cn City_Quarantine)) cn
          = Some 0%Q) as Hp.
  { unfold ProbabilityOfCity. simpl. by rewrite Hget'. }
  split; [exact Hp|]. split.
  - unfold CanOutbreak. rewrite Hp. simpl. rewrite Hget'. simpl.
    by destruct (_ =? _).
  - intros cn' Hne.
    assert (GetCity (Cities_update (GS_Cities gs) cn City_Quarantine) cn'
            = GetCity (GS_Cities gs) cn') as Hother by by apply GetCity_update_other.
    assert (ProbabilityOfCity
              (set_Cities gs (Cities_update (GS_Cities gs) cn City_Quarantine)) cn'
            = ProbabilityOfCity gs cn') as Hp'.
    { unfold ProbabilityOfCity. simpl. by rewrite Hother. }
    split; [exact Hp'|].
    unfold CanOutbreak. rewrite Hp'. simpl. by rewrite Hother.
Qed.

Lemma Quarantine_effect_witness :
  ProbabilityOfCity small_game "Lagos" = Some (2 # 4)
  ∧ ProbabilityOfCity (snd (GameState_Quarantine small_game "Lagos")) "Lagos" = Some 0%Q
  ∧ ProbabilityOfCity (snd (GameState_Quarantine small_game "Lagos")) "Atlanta" = Some (2 # 4).
Proof.
  destruct (Quarantine_effect small_game "Lagos") as (H0 & _ & Hother); [reflexivity|].
  split; [reflexivity|]. split; [exact H0|].
  destruct (Hother "Atlanta") as [-> _]; [discriminate | reflexivity].
Defined.

(** ** What [Infect] and [Epidemic] do to the city *)

(** X8. A successful [Infect(cn)] finds the city.  A quarantined city absorbs the
    infection: its quarantine is removed and its level stays.  Otherwise the
    level goes up by one, unless it is 3 already.  Either way the city ends
    up not quarantined, and no other name is affected. *)
Theorem Infect_city_effect (gs : GameState) (cn : CityName) :
  fst (GameState_Infect gs cn) = Done →
  ∃ city city',
    GetCity (GS_Cities gs) cn = Some city
    ∧ GetCity (GS_Cities (snd (GameState_Infect gs cn))) cn = Some city'
    ∧ Quarantined city' = false
    ∧ NumInfections city'
      = (if Quarantined city then NumInfections city
         else if NumInfections city =? 3 then 3
              else int_wrap (NumInfections city + 1))
    ∧ (∀ cn', cn' ≠ cn →
         GetCity (GS_Cities (snd (GameState_Infect gs cn))) cn' = GetCity (GS_Cities gs) cn').
Proof.
  unfold GameState_Infect.
  destruct (InfectionDeck_Draw cn (GS_InfectionDeck gs)) as [[| |] d]; simpl; [|done..].
  destruct (GetCity (GS_Cities gs) cn) as [city|] eqn:Hget; [|done].
  destruct (Quarantined city) eqn:Hq; simpl; intros _.
  - exists city, (City_RemoveQuarantine city). rewrite Hq.
    split; [done|]. split; [by apply GetCity_update_same|].
    split; [done|]. split; [done|].
    intros cn' Hne. by apply GetCity_update_other.
  - exists city, (snd (City_Infect city)). rewrite Hq.
    split; [done|]. split.
    { apply (GetCity_update_same _ _ (λ c, snd (City_Infect c))); [done|].
      unfold City_Infect. by destruct (_ =? _). }
    split; [unfold City_Infect; by destruct (_ =? _)|].
    split.
    { unfold City_Infect. destruct (Z.eqb_spec (NumInfections city) 3); simpl; done. }
    intros cn' Hne. apply GetCity_update_other; [done|].
    intros c. unfold City_Infect. by destruct (_ =? _).
Qed.

Lemma Infect_city_effect_witness :
  map NumInfections (GS_Cities (snd (GameState_Infect small_game "Lagos"))) = [0; 1]
  ∧ (∃ city', GetCity (GS_Cities (snd (GameState_Infect shock_game "Atlanta"))) "Atlanta"
              = Some city')
  ∧ fst (GameState_Infect shock_game "Atlanta") = Failed (ErrInfectionDuplicateDraw "Atlanta").
Proof.
  destruct (Infect_city_effect small_game "Lagos") as (city & city' & _ & Hget' & _);
    [reflexivity|].
  split; [reflexivity|]. split; [|reflexivity].
  exists (City_Quarantine (City_SetInfections 1 atlanta)). reflexivity.
Defined.

(** X9. A successful [Epidemic(cn)] finds the city and uses up one epidemic
    card.  A quarantined city loses its quarantine and keeps its level;
    otherwise the level is set to 3.  No other name is affected. *)
Theorem Epidemic_city_effect (gs : GameState) (cn : CityName) :
  fst (GameState_Epidemic gs cn) = Done →
  let gs' := snd (GameState_Epidemic gs cn) in
  ∃ city city',
    GetCity (GS_Cities gs) cn = Some city
    ∧ GetCity (GS_Cities gs') cn = Some city'
    ∧ Quarantined city' = false
    ∧ NumInfections city' = (if Quarantined city then NumInfections city else 3)
    ∧ CD_Drawn (GS_CityDeck gs') = CD_Drawn (GS_CityDeck gs) ++ [mkCityCard City_zero true]
    ∧ EpidemicsDrawn (GS_CityDeck gs') = EpidemicsDrawn (GS_CityDeck gs) + 1
    ∧ EpidemicsDrawn (GS_CityDeck gs') <= NumEpidemics (GS_CityDeck gs')
    ∧ (∀ cn', cn' ≠ cn → GetCity (GS_Cities gs') cn' = GetCity (GS_Cities gs) cn').
Proof.
  unfold GameState_Epidemic.
  destruct (InfectionDeck_PullFromBottom cn (GS_InfectionDeck gs)) as [[| |] d]; simpl; [|done..].
  destruct (CityDeck_DrawEpidemic_Done (GS_CityDeck gs)) as (Hiff & Hdone & _).
  pose proof (CityDeck_DrawEpidemic_counts (GS_CityDeck gs)) as Hcount.
  destruct (CityDeck_DrawEpidemic (GS_CityDeck gs)) as [[| |] cd]; simpl in *; [|done..].
  specialize (Hdone eq_refl). destruct (Hcount eq_refl) as [Hd Hn].
  apply proj1 in Hiff. specialize (Hiff eq_refl).
  destruct (GetCity (GS_Cities gs) cn) as [city|] eqn:Hget; [|done].
  destruct (Quarantined city) eqn:Hq; simpl; intros _.
  - exists city, (City_RemoveQuarantine city). rewrite Hq.
    split; [done|]. split; [by apply GetCity_update_same|].
    split; [done|]. split; [done|]. split; [by rewrite Hdone|].
    split; [done|]. split; [lia|].
    intros cn' Hne. by apply GetCity_update_other.
  - exists city, (City_Epidemic city). rewrite Hq.
    split; [done|]. split; [by apply GetCity_update_same|].
    split; [done|]. split; [done|]. split; [by rewrite Hdone|].
    split; [done|]. split; [lia|].
    intros cn' Hne. by apply GetCity_update_other.
Qed.

Lemma Epidemic_city_effect_witness :
  map NumInfections (GS_Cities (snd (GameState_Epidemic shock_game "Atlanta"))) = [1; 1]
  ∧ map NumInfections (GS_Cities (snd (GameState_Epidemic shock_game "Lagos"))) = [1; 3]
  ∧ EpidemicsDrawn (GS_CityDeck (snd (GameState_Epidemic shock_game "Atlanta"))) = 1.
Proof.
  destruct (Epidemic_city_effect shock_game "Atlanta")
    as (city & city' & _ & _ & _ & _ & _ & Hd & _); [reflexivity|].
  split; [reflexivity|]. split; [reflexivity|]. rewrite Hd. reflexivity.
Defined.

(** X10. [Epidemic] drops the error of [GetCity]: for a name the drawn pile holds
    and the registry does not, it panics on the nil city, after the epidemic
    card is drawn; [Infect] returns the error of [GetCity] there.  These are
    the only panics of the two, apart from one raised inside the infection
    deck. *)
Theorem Epidemic_panics_iff (gs : GameState) (cn : CityName) :
  (fst (GameState_Epidemic gs cn) = Panicked
   ↔ fst (InfectionDeck_PullFromBottom cn (GS_InfectionDeck gs)) = Panicked
     ∨ (fst (InfectionDeck_PullFromBottom cn (GS_InfectionDeck gs)) = Done
        ∧ EpidemicsDrawn (GS_CityDeck gs) < NumEpidemics (GS_CityDeck gs)
        ∧ GetCity (GS_Cities gs) cn = None))
  ∧ (fst (InfectionDeck_PullFromBottom cn (GS_InfectionDeck gs)) = Done →
     EpidemicsDrawn (GS_CityDeck gs) < NumEpidemics (GS_CityDeck gs) →
     GetCity (GS_Cities gs) cn = None →
     CD_Drawn (GS_CityDeck (snd (GameState_Epidemic gs cn)))
     = CD_Drawn (GS_CityDeck gs) ++ [mkCityCard City_zero true])
  ∧ (fst (GameState_Infect gs cn) = Panicked
     ↔ fst (InfectionDeck_Draw cn (GS_InfectionDeck gs)) = Panicked)
  ∧ (fst (InfectionDeck_Draw cn (GS_InfectionDeck gs)) = Done →
     GetCity (GS_Cities gs) cn = None →
     fst (GameState_Infect gs cn) = Failed (ErrNoCityNamed cn)).
Proof.
  split; [|split; [|split]].
  - unfold GameState_Epidemic.
    destruct (InfectionDeck_PullFromBottom cn (GS_InfectionDeck gs)) as [[| |] d]; simpl.
    + destruct (CityDeck_DrawEpidemic_Done (GS_CityDeck gs)) as (Hiff & _ & Hfail).
      destruct (CityDeck_DrawEpidemic (GS_CityDeck gs)) as [[| |] cd]; simpl in *.
      * apply proj1 in Hiff. specialize (Hiff eq_refl).
        destruct (GetCity (GS_Cities gs) cn) as [city|]; simpl.
        -- split; [by destruct (Quarantined city)|]. intros [?|(_ & _ & ?)]; done.
        -- split; auto.
      * split; [done|]. intros [?|(_ & Hlt & _)]; [done|]. by apply Hiff in Hlt.
      * specialize (Hfail ltac:(done)). done.
    + split; [done|]. intros [?|(? & _)]; done.
    + split; auto.
  - intros Hpull Hlt Hget. unfold GameState_Epidemic.
    destruct (InfectionDeck_PullFromBottom cn (GS_InfectionDeck gs)) as [err d].
    simpl in Hpull. subst err. simpl.
    destruct (CityDeck_DrawEpidemic_Done (GS_CityDeck gs)) as (Hiff & Hdone & _).
    apply Hiff in Hlt. specialize (Hdone Hlt).
    destruct (CityDeck_DrawEpidemic (GS_CityDeck gs)) as [err cd]. simpl in *. subst.
    simpl. by rewrite Hget.
  - unfold GameState_Infect.
    destruct (InfectionDeck_Draw cn (GS_InfectionDeck gs)) as [[| |] d]; simpl; [|done..].
    destruct (GetCity (GS_Cities gs) cn) as [city|]; simpl; [|done].
    by destruct (Quarantined city).
  - intros Hdraw Hget. unfold GameState_Infect.
    destruct (InfectionDeck_Draw cn (GS_InfectionDeck gs)) as [err d].
    simpl in Hdraw. subst err. simpl. by rewrite Hget.
Qed.

(** The card "Lagos" of [orphan_game], drawn. *)
Lemma Epidemic_panics_iff_witness :
  let gs := snd (run (OpInfectionDeckDraw "Lagos") orphan_game) in
  fst (GameState_Epidemic gs "Lagos") = Panicked
  ∧ EpidemicsDrawn (GS_CityDeck (snd (GameState_Epidemic gs "Lagos"))) = 1
  ∧ fst (GameState_Infect orphan_game "Lagos") = Failed (ErrNoCityNamed "Lagos").
Proof.
  intros gs.
  destruct (Epidemic_panics_iff gs "Lagos") as (Hiff & Hdrawn & _).
  destruct (Epidemic_panics_iff orphan_game "Lagos") as (_ & _ & _ & Hinf).
  split; [|split].
  - apply Hiff. right. split; [reflexivity|]. split; [vm_compute; reflexivity | reflexivity].
  - unfold EpidemicsDrawn. rewrite Hdrawn; [reflexivity | reflexivity | | reflexivity].
    vm_compute. reflexivity.
  - apply Hinf; reflexivity.
Defined.

(** ** The order of [byInfectionRate] *)

Lemma ascii_compare_refl (a : Ascii.ascii) : Ascii.compare a a = Eq.
Proof. unfold Ascii.compare. apply N.compare_refl. Qed.

Lemma ascii_compare_trans (a b c : Ascii.ascii) :
  Ascii.compare a b = Lt → Ascii.compare b c = Lt → Ascii.compare a c = Lt.
Proof. unfold Ascii.compare. rewrite !N.compare_lt_iff. lia. Qed.

Lemma string_compare_refl (s : string) : String.compare s s = Eq.
Proof. induction s as [|a s IH]; simpl; [done|]. by rewrite ascii_compare_refl. Qed.

Lemma string_compare_trans (a b c : string) :
  String.compare a b = Lt → String.compare b c = Lt → String.compare a c = Lt.
Proof.
  revert b c. induction a as [|x a IH]; intros [|y b] [|z c]; simpl; try done.
  destruct (Ascii.compare x y) eqn:Exy; try done;
    destruct (Ascii.compare y z) eqn:Eyz; try done.
  - apply Ascii.compare_eq_iff in Exy, Eyz. subst. rewrite ascii_compare_refl. apply IH.
  - apply Ascii.compare_eq_iff in Exy. subst. by rewrite Eyz.
  - apply Ascii.compare_eq_iff in Eyz. subst. by rewrite Exy.
  - by rewrite (ascii_compare_trans x y z).
Qed.

Lemma string_lt_irrefl (a : string) : string_lt a a = false.
Proof. unfold string_lt. by rewrite string_compare_refl. Qed.

Lemma string_lt_asym (a b : string) : string_lt a b = true → string_lt b a = false.
Proof.
  unfold string_lt. rewrite (String.compare_antisym b a).
  by destruct (String.compare a b).
Qed.

Lemma string_lt_trans (a b c : string) :
  string_lt a b = true → string_lt b c = true → string_lt a c = true.
Proof.
  unfold string_lt.
  destruct (String.compare a b) eqn:E1; try done.
  destruct (String.compare b c) eqn:E2; try done.
  by rewrite (string_compare_trans a b c).
Qed.

Lemma string_lt_total (a b : string) : a ≠ b → string_lt a b = true ∨ string_lt b a = true.
Proof.
  intros Hne. unfold string_lt. rewrite (String.compare_antisym b a).
  destruct (String.compare a b) eqn:E; simpl; auto.
  apply String.compare_eq_iff in E. congruence.
Qed.

(** The order on names that [Less] tests, for names the registry knows. *)
Lemma Less_value (names : list CityName) (cities : Cities) (i j : Z)
    (nameI nameJ : CityName) (cityI cityJ : City) :
  index names i = Some nameI → index names j = Some nameJ →
  GetCity cities nameI = Some cityI → GetCity cities nameJ = Some cityJ →
  Less names cities i j
  = Some (bool_decide (NumInfections cityJ < NumInfections cityI
                       ∨ (NumInfections cityI = NumInfections cityJ
                          ∧ string_lt nameI nameJ = true))).
Proof.
  intros Hi Hj Hci Hcj. unfold Less. rewrite Hi, Hj, Hci, Hcj.
  destruct (Z.gtb_spec (NumInfections cityI) (NumInfections cityJ)).
  { f_equal. symmetry. apply bool_decide_eq_true. lia. }
  destruct (Z.ltb_spec (NumInfections cityI) (NumInfections cityJ)).
  { f_equal. symmetry. apply bool_decide_eq_false. lia. }
  f_equal. destruct (string_lt nameI nameJ).
  - symmetry. apply bool_decide_eq_true. right. split; [lia | done].
  - symmetry. apply bool_decide_eq_false. intros [?|[_ ?]]; [lia | done].
Qed.

(** X11. On names that all have a city, [Less] is a strict total order of the
    entries: it never panics on indices in range, it is irreflexive,
    asymmetric and transitive, and of two different names one is less than
    the other: more infections first, then the smaller name.  So a sorted
    order of distinct names is unique. *)
Theorem Less_strict_total_order (names : list CityName) (cities : Cities) :
  (∀ name, name ∈ names → is_Some (GetCity cities name)) →
  ∀ (i j k : Z) (nameI nameJ nameK : CityName),
    index names i = Some nameI → index names j = Some nameJ → index names k = Some nameK →
    is_Some (Less names cities i j)
    ∧ Less names cities i i = Some false
    ∧ (Less names cities i j = Some true → Less names cities j i = Some false)
    ∧ (Less names cities i j = Some true → Less names cities j k = Some true →
       Less names cities i k = Some true)
    ∧ (nameI ≠ nameJ →
       Less names cities i j = Some true ∨ Less names cities j i = Some true)
    ∧ (nameI = nameJ → Less names cities i j = Some false).
Proof.
  intros Hknown i j k nameI nameJ nameK Hi Hj Hk.
  assert (∀ i name, index names i = Some name → name ∈ names) as Hin.
  { intros i' name. unfold index. destruct (0 <=? i'); [|done].
    intros H. apply list_elem_of_lookup. eauto. }
  destruct (Hknown nameI (Hin _ _ Hi)) as [cityI HcI].
  destruct (Hknown nameJ (Hin _ _ Hj)) as [cityJ HcJ].
  destruct (Hknown nameK (Hin _ _ Hk)) as [cityK HcK].
  rewrite (Less_value names cities i j nameI nameJ cityI cityJ) by done.
  rewrite (Less_value names cities j i nameJ nameI cityJ cityI) by done.
  rewrite (Less_value names cities i i nameI nameI cityI cityI) by done.
  rewrite (Less_value names cities j k nameJ nameK cityJ cityK) by done.
  rewrite (Less_value names cities i k nameI nameK cityI cityK) by done.
  split; [done|]. split; [|split; [|split; [|split]]].
  - f_equal. apply bool_decide_eq_false. rewrite string_lt_irrefl.
    intros [?|[_ ?]]; [lia | done].
  - intros [= H%bool_decide_eq_true]. f_equal. apply bool_decide_eq_false.
    intros [?|[? Hlt]]; destruct H as [?|[? Hlt']]; try lia.
    apply string_lt_asym in Hlt. congruence.
  - intros [= H1%bool_decide_eq_true] [= H2%bool_decide_eq_true].
    f_equal. apply bool_decide_eq_true.
    destruct H1 as [?|[? Hlt1]], H2 as [?|[? Hlt2]]; try (left; lia).
    right. split; [lia|]. by apply (string_lt_trans nameI nameJ nameK).
  - intros Hne.
    destruct (Z.lt_trichotomy (NumInfections cityI) (NumInfections cityJ)) as [?|[?|?]].
    + right. f_equal. apply bool_decide_eq_true. by left.
    + destruct (string_lt_total nameI nameJ Hne).
      * left. f_equal. apply bool_decide_eq_true. by right.
      * right. f_equal. apply bool_decide_eq_true. by right.
    + left. f_equal. apply bool_decide_eq_true. left. lia.
  - intros ->. rewrite HcI in HcJ. injection HcJ as ->.
    f_equal. apply bool_decide_eq_false. rewrite string_lt_irrefl.
    intros [?|[_ ?]]; [lia | done].
Qed.

Lemma Less_strict_total_order_witness :
  let cities := [atlanta; City_SetInfections 3 lagos] in
  Less ["Atlanta"; "Lagos"] cities 1 0 = Some true
  ∧ Less ["Atlanta"; "Lagos"] cities 0 1 = Some false
  ∧ Less ["Atlanta"; "Lagos"] [atlanta; lagos] 0 1 = Some true
  ∧ Less ["Atlanta"; "Paris"] cities 0 1 = None
  ∧ Less ["Atlanta"; "Lagos"] cities 0 2 = None.
Proof.
  intros cities.
  assert (∀ name, name ∈ ["Atlanta"; "Lagos"] → is_Some (GetCity cities name)) as Hknown.
  { intros name Hin. apply elem_of_cons in Hin as [->|Hin]; [by exists atlanta|].
    apply elem_of_cons in Hin as [->|Hin]; [by exists (City_SetInfections 3 lagos)|].
    by apply not_elem_of_nil in Hin. }
  pose proof (Less_strict_total_order ["Atlanta"; "Lagos"] cities Hknown
                1 0 0 "Lagos" "Atlanta" "Atlanta" eq_refl eq_refl eq_refl)
    as (_ & _ & Hasym & _).
  split; [reflexivity|]. split; [by apply Hasym|]. repeat split; reflexivity.
Defined.

(** ** Looking a city up, by name and by prefix *)

(** X12. [GetCity] fails exactly when no city carries the name; otherwise it
    returns the first city of the registry that does.  Every city of the
    catalog a game is made of is found under its name, in the registry and,
    as a card that is not an epidemic, in the city deck. *)
Theorem GetCity_lookup (cs : Cities) (cn : CityName) :
  (GetCity cs cn = None ↔ ∀ c, c ∈ cs → Name c ≠ cn)
  ∧ (∀ c, GetCity cs cn = Some c →
       ∃ i : nat, cs !! i = Some c ∧ Name c = cn
                  ∧ ∀ (j : nat) c', (j < i)%nat → cs !! j = Some c' → Name c' ≠ cn)
  ∧ (∀ c gameName, c ∈ cs →
       is_Some (GetCity (GS_Cities (NewGame cs gameName)) (Name c))
       ∧ mkCityCard c false ∈ CD_All (GS_CityDeck (NewGame cs gameName))).
Proof.
  split; [apply GetCity_None|]. split.
  - induction cs as [|x cs IH]; simpl; [done|]. intros c.
    unfold name_is. case_bool_decide as Hx.
    + intros [= <-]. exists 0%nat. split; [done|]. split; [done|]. intros j c' Hj. lia.
    + intros (i & Hi & Hn & Hlt)%IH. exists (S i). split; [done|]. split; [done|].
      intros [|j] c' Hj; simpl.
      * by intros [= <-].
      * apply Hlt. lia.
  - intros c gameName Hin. simpl. split.
    + destruct (GetCity cs (Name c)) eqn:E; [done|].
      exfalso. by apply (proj1 (GetCity_None cs (Name c)) E c).
    + unfold CityCards. apply elem_of_app. left.
      apply list_elem_of_fmap. by exists c.
Qed.

Lemma GetCity_lookup_witness :
  GetCity [atlanta; lagos] "Paris" = None
  ∧ GetCity [atlanta; lagos; City_SetInfections 2 lagos] "Lagos" = Some lagos.
Proof.
  destruct (GetCity_lookup [atlanta; lagos] "Paris") as (Hnone & _).
  split; [|reflexivity].
  apply Hnone. intros c Hin. apply elem_of_cons in Hin as [->|Hin]; [done|].
  apply elem_of_cons in Hin as [->|Hin]; [done|]. by apply not_elem_of_nil in Hin.
Defined.

Lemma string_prefix_refl (s : string) : String.prefix s s = true.
Proof.
  induction s as [|a s IH]; simpl; [done|].
  by destruct (Ascii.ascii_dec a a).
Qed.

Section PrefixLookupFacts.
Variable ToLower : string → string.

Lemma GetCityByPrefix_from_filter (ret : option City) (cs : Cities) (prefix : string) :
  GetCityByPrefix_from ToLower ret cs prefix
  = match ret, filter (λ c, prefix_matches ToLower prefix c = true) cs with
    | None, [] => inl (ErrNotAPrefix prefix)
    | None, [c] => inr c
    | Some r, [] => inr r
    | _, _ => inl (ErrAmbiguous prefix)
    end.
Proof.
  revert ret. induction cs as [|x cs IH]; intros ret; cbn [GetCityByPrefix_from].
  { by destruct ret. }
  set (P := λ c, prefix_matches ToLower prefix c = true) in *.
  destruct (prefix_matches ToLower prefix x) eqn:E.
  - rewrite (filter_cons_True P) by exact E.
    destruct ret as [r|]; [done|]. rewrite IH. reflexivity.
  - rewrite (filter_cons_False P) by (unfold P; rewrite E; done). apply IH.
Qed.

(** X13. [GetCityByPrefix] by the cities whose lowered name starts with the
    lowered prefix: none, the not-a-prefix error; exactly one, that city; two
    or more, the ambiguity error.  The full name of a city of the registry
    is never "not a prefix"; but it is ambiguous as soon as it starts the
    name of another city, and then no prefix selects that city. *)
Theorem GetCityByPrefix_cases (cs : Cities) (prefix : string) :
  GetCityByPrefix ToLower cs prefix
  = match filter (λ c, prefix_matches ToLower prefix c = true) cs with
    | [] => inl (ErrNotAPrefix prefix)
    | [c] => inr c
    | _ => inl (ErrAmbiguous prefix)
    end
  ∧ (∀ c, GetCityByPrefix ToLower cs prefix = inr c →
          c ∈ cs ∧ prefix_matches ToLower prefix c = true)
  ∧ (∀ c, c ∈ cs → GetCityByPrefix ToLower cs (Name c) ≠ inl (ErrNotAPrefix (Name c)))
  ∧ (∀ (i j : nat) c1 c2, i ≠ j → cs !! i = Some c1 → cs !! j = Some c2 →
       prefix_matches ToLower prefix c1 = true → prefix_matches ToLower prefix c2 = true →
       GetCityByPrefix ToLower cs prefix = inl (ErrAmbiguous prefix)).
Proof.
  unfold GetCityByPrefix. rewrite GetCityByPrefix_from_filter.
  set (P := λ c, prefix_matches ToLower prefix c = true).
  split; [done|]. split; [|split].
  - intros c. destruct (filter P cs) as [|x [|y l]] eqn:E; try done.
    intros [= <-].
    assert (x ∈ filter P cs) as Hin by (rewrite E; left).
    by apply list_elem_of_filter in Hin as [? ?].
  - intros c Hin. rewrite GetCityByPrefix_from_filter.
    assert (c ∈ filter (λ c', prefix_matches ToLower (Name c) c' = true) cs) as Hf.
    { apply list_elem_of_filter. split; [|done].
      unfold prefix_matches, HasPrefix. apply string_prefix_refl. }
    destruct (filter _ cs) as [|x [|y l]]; [by apply not_elem_of_nil in Hf | done..].
  - intros i j c1 c2 Hne Hi Hj H1 H2.
    assert (2 ≤ length (filter P cs))%nat as Hlen.
    { clear -Hne Hi Hj H1 H2. revert i j Hne Hi Hj.
      induction cs as [|x l IH]; intros i j Hne Hi Hj; [done|].
      assert (∀ (k : nat) c, l !! k = Some c → P c → (1 ≤ length (filter P l))%nat) as Hone.
      { intros k c Hk Hc.
        assert (c ∈ filter P l) as Hin.
        { apply list_elem_of_filter. split; [done|]. apply list_elem_of_lookup. eauto. }
        destruct (filter P l); [by apply not_elem_of_nil in Hin | simpl; lia]. }
      destruct i as [|i], j as [|j]; simpl in Hi, Hj; try done.
      - injection Hi as ->. rewrite (filter_cons_True P) by exact H1. simpl.
        pose proof (Hone j c2 Hj H2). lia.
      - injection Hj as ->. rewrite (filter_cons_True P) by exact H2. simpl.
        pose proof (Hone i c1 Hi H1). lia.
      - assert (2 ≤ length (filter P l))%nat by (apply (IH i j); auto).
        destruct (decide (P x)) as [Hx|Hx].
        + rewrite (filter_cons_True P) by exact Hx. simpl. lia.
        + by rewrite (filter_cons_False P). }
    destruct (filter P cs) as [|x [|y l]]; simpl in Hlen; try lia. done.
Qed.
End PrefixLookupFacts.

Lemma GetCityByPrefix_cases_witness :
  let lima := mkCity "Lima" "Yellow" 0 [] 0 false in
  let limassol := mkCity "Limassol" "Blue" 0 [] 0 false in
  GetCityByPrefix ascii_ToLower [atlanta; lagos; lima; limassol] "LA" = inr lagos
  ∧ GetCityByPrefix ascii_ToLower [atlanta; lagos; lima; limassol] "Lima"
    = inl (ErrAmbiguous "Lima")
  ∧ GetCityByPrefix ascii_ToLower [atlanta; lagos; lima; limassol] "x"
    = inl (ErrNotAPrefix "x")
  ∧ GetCityByPrefix ascii_ToLower [atlanta; lagos; lima; limassol] ""
    = inl (ErrAmbiguous "").
Proof.
  intros lima limassol.
  destruct (GetCityByPrefix_cases ascii_ToLower [atlanta; lagos; lima; limassol] "Lima")
    as (_ & _ & _ & Hamb).
  split; [reflexivity|]. split; [|split; reflexivity].
  apply (Hamb 2%nat 3%nat lima limassol); [lia | reflexivity..].
Defined.

(** ** The view's command line *)

Lemma Split_cons (s : string) : ∃ word words, Split s = word :: words.
Proof.
  induction s as [|a s (w & ws & IH)]; simpl; [by eexists _, _|].
  case_bool_decide; [by eexists _, _|]. rewrite IH. by eexists _, _.
Qed.

(** One word only, exactly when the text has no space. *)
Lemma Split_second (s : string) : Split s !! 1%nat = None ↔ contains_space s = false.
Proof.
  induction s as [|a s IH]; simpl; [done|].
  destruct (Split_cons s) as (w & ws & Hs).
  case_bool_decide; simpl.
  - rewrite Hs. simpl. split; done.
  - rewrite Hs in *. simpl in *. exact IH.
Qed.

(** X14. No command of the view changes a city or the city deck, whatever the
    text: "infect" draws the card from the infection deck and leaves the
    infection level and the quarantine of the city as they are.  The only
    field that can change is the infection deck, and only through
    [InfectionDeck.Draw] on the second word. *)
Theorem runCommand_frame (gs : GameState) (buffer : string) :
  let gs' := snd (fst (runCommand gs buffer)) in
  GS_Cities gs' = GS_Cities gs
  ∧ GS_CityDeck gs' = GS_CityDeck gs
  ∧ GS_InfectionRate gs' = GS_InfectionRate gs
  ∧ GS_Outbreaks gs' = GS_Outbreaks gs
  ∧ (gs' = gs
     ∨ ∃ cmd args rest,
         Split (Trim buffer) = cmd :: args :: rest
         ∧ (cmd = "infect" ∨ cmd = "i")
         ∧ gs' = set_InfectionDeck gs (snd (InfectionDeck_Draw args (GS_InfectionDeck gs)))).
Proof.
  unfold runCommand.
  case_bool_decide as Hempty; [simpl; repeat split; auto|].
  destruct (Split (Trim buffer)) as [|cmd [|args rest]] eqn:Hs; simpl;
    [repeat split; auto..|].
  destruct (bool_decide (cmd = "infect") || bool_decide (cmd = "i")) eqn:Hcmd; simpl;
    [|repeat split; auto].
  assert (cmd = "infect" ∨ cmd = "i") as Hor.
  { apply orb_true_iff in Hcmd as [H|H]; apply bool_decide_eq_true in H; auto. }
  destruct (InfectionDeck_Draw args (GS_InfectionDeck gs)) as [err d] eqn:Hd.
  assert (snd (fst (match err with
                    | Failed e => (Done, set_InfectionDeck gs d, [SayWarning e])
                    | _ => (Done, set_InfectionDeck gs d, [SayInfected args])
                    end)) = set_InfectionDeck gs d) as -> by by destruct err.
  repeat split; auto. right. exists cmd, args, rest.
  split; [reflexivity|]. split; [exact Hor | by rewrite Hd].
Qed.

Lemma runCommand_frame_witness :
  let text := String.append (String (Ascii.ascii_of_nat 9) "infect Lagos")
                            (String (Ascii.ascii_of_nat 10) "") in
  runCommand small_game text
  = (Done, snd (run (OpInfectionDeckDraw "Lagos") small_game), [SayInfected "Lagos"])
  ∧ map NumInfections (GS_Cities (snd (fst (runCommand small_game text)))) = [0; 0]
  ∧ map NumInfections (GS_Cities (snd (GameState_Infect small_game "Lagos"))) = [0; 1]
  ∧ runCommand small_game "infect  Lagos"
    = (Done, small_game, [SayWarning (ErrInfectionNotFound "")]).
Proof.
  intros text.
  destruct (runCommand_frame small_game text) as (Hc & _).
  split; [vm_compute; reflexivity|]. split; [by rewrite Hc|].
  split; [reflexivity | vm_compute; reflexivity].
Defined.

(** X15. A command of one word panics: [commandArgs[1]] is read before the
    command is looked at, so a text that is not blank and has no space in it
    after trimming is an index out of range, for "infect" as for an unknown
    word.  Every other text returns nil; a blank one does nothing. *)
Theorem runCommand_panics_iff (gs : GameState) (buffer : string) :
  (fst (fst (runCommand gs buffer)) = Panicked
   ↔ Trim buffer ≠ EmptyString ∧ contains_space (Trim buffer) = false)
  ∧ (fst (fst (runCommand gs buffer)) ≠ Panicked → fst (fst (runCommand gs buffer)) = Done)
  ∧ (fst (fst (runCommand gs buffer)) = Panicked → runCommand gs buffer = (Panicked, gs, []))
  ∧ (Trim buffer = EmptyString → runCommand gs buffer = (Done, gs, [])).
Proof.
  unfold runCommand.
  pose proof (Split_second (Trim buffer)) as H2.
  destruct (Split_cons (Trim buffer)) as (cmd & words & Hs).
  case_bool_decide as Hempty.
  { repeat split; try done. by intros [? _]. }
  rewrite Hs in *. simpl in *.
  destruct words as [|args rest]; simpl in *.
  - split; [|done]. split; [|done]. intros _. split; [done|]. by apply H2.
  - assert (fst (fst (if bool_decide (cmd = "infect") || bool_decide (cmd = "i")
                      then let (err, d) := InfectionDeck_Draw args (GS_InfectionDeck gs) in
                           match err with
                           | Failed e => (Done, set_InfectionDeck gs d, [SayWarning e])
                           | _ => (Done, set_InfectionDeck gs d, [SayInfected args])
                           end
                      else (Done, gs, [SayUnrecognized cmd]))) = Done) as Hdone.
    { destruct (_ || _); [|done].
      destruct (InfectionDeck_Draw args (GS_InfectionDeck gs)) as [[| |] d]; done. }
    rewrite Hdone. split; [|done]. split; [done|].
    intros [_ Hno]. apply H2 in Hno. done.
Qed.

Lemma runCommand_panics_iff_witness :
  runCommand small_game "infect" = (Panicked, small_game, [])
  ∧ runCommand small_game "  " = (Done, small_game, [])
  ∧ runCommand small_game "cure Lagos" = (Done, small_game, [SayUnrecognized "cure"]).
Proof.
  destruct (runCommand_panics_iff small_game "infect") as (Hiff & _ & Hstate & _).
  split; [|split; vm_compute; reflexivity].
  apply Hstate, Hiff. split; [discriminate | reflexivity].
Defined.

(** ** The opening position *)

Lemma Total_CityCards (cs : Cities) (n : Z) (drawn : list CityCard) :
  0 <= n → Total (mkCityDeck drawn (CityCards cs n)) = len cs + n.
Proof.
  intros Hn. unfold Total, CityCards, len. simpl.
  rewrite length_app, length_map, repeat_length. lia.
Qed.

(** X16. The city deck of a new game: one card per city of the catalog and
    [EpidemicsPerGame] epidemic cards, nothing drawn; a phase has a fifth of
    the cards, rounded down, and the opening [probabilityOfEpidemic] is 2
    over that.  The game starts with infection rate 2 and no outbreak. *)
Theorem NewGame_opening (cities : Cities) (gameName : string) :
  let gs := NewGame cities gameName in
  let cpe := (len cities + 5) / 5 in
  Total (GS_CityDeck gs) = len cities + 5
  ∧ NumEpidemics (GS_CityDeck gs) = 5
  ∧ CD_Drawn (GS_CityDeck gs) = []
  ∧ cardsPerEpidemic (GS_CityDeck gs) = Some cpe
  ∧ 1 <= cpe
  ∧ probabilityOfEpidemic (GS_CityDeck gs) = Some (2 / inject_Z cpe)%Q
  ∧ GS_Cities gs = cities
  ∧ GS_InfectionRate gs = 2
  ∧ GS_Outbreaks gs = 0
  ∧ fst (CityDeck_DrawEpidemic (GS_CityDeck gs)) = Done.
Proof.
  simpl.
  assert (Total (mkCityDeck [] (CityCards cities EpidemicsPerGame)) = len cities + 5) as Ht
    by by apply Total_CityCards.
  assert (NumEpidemics (mkCityDeck [] (CityCards cities EpidemicsPerGame)) = 5) as Hn
    by by apply NumEpidemics_CityCards.
  assert (cardsPerEpidemic (mkCityDeck [] (CityCards cities EpidemicsPerGame))
          = Some ((len cities + 5) / 5)) as Hc.
  { rewrite cardsPerEpidemic_Some by lia. by rewrite Ht, Hn. }
  pose proof (cardsPerEpidemic_pos _ _ Hc) as Hpos.
  split; [exact Ht|]. split; [exact Hn|]. split; [done|]. split; [exact Hc|].
  split; [exact Hpos|]. split; [|split; [done|split; [done|split; [done|]]]].
  - unfold probabilityOfEpidemic. rewrite Hc. cbn [CD_Drawn].
    destruct (Z.eqb_spec ((len cities + 5) / 5) 0); [lia|].
    change (len (@nil CityCard)) with 0.
    change (EpidemicsDrawn (mkCityDeck [] (CityCards cities EpidemicsPerGame))) with 0.
    rewrite Qfloor_div_inject by lia.
    rewrite Z.div_0_l, Z.rem_0_l, Z.sub_0_r by lia. done.
  - apply (proj1 (CityDeck_DrawEpidemic_Done _)).
    rewrite Hn. done.
Qed.

Lemma NewGame_opening_witness :
  Total (GS_CityDeck (NewGame catalog90 "demo")) = 95
  ∧ cardsPerEpidemic (GS_CityDeck (NewGame catalog90 "demo")) = Some 19
  ∧ probabilityOfEpidemic (GS_CityDeck (NewGame catalog90 "demo")) = Some (2 # 19).
Proof.
  destruct (NewGame_opening catalog90 "demo") as (Ht & _ & _ & Hc & _ & Hp & _).
  split; [exact Ht|]. split; [exact Hc | exact Hp].
Defined.
